(** * csv2ofx.main: the command-line driver of the csv -> OFX/QIF converter

    A shallow embedding of [src/csv2ofx/main.py].  The module declares the
    argument parser and one function, [run], that wires the conversion
    pipeline together: it parses the options, builds the renderer, opens the
    source, calls the pipeline stages, concatenates header, body and footer,
    hands them to the writer and turns the failures of the stages and of the
    writer into a process exit.

    Python objects are modelled by the data they carry, exceptions by an
    inductive type, generators by the fragments they yield followed by the
    exception they may raise, and the effects of [run] (file handles, the
    destination text, the order of the calls) by a state threaded through
    a small state-and-exception monad. *)

From Stdlib Require Import ZArith QArith Qabs String Ascii List Bool Lia.
From stdpp Require Import gmap strings.

Local Open Scope Z_scope.
Local Open Scope string_scope.
Local Open Scope list_scope.

(** ** Python values *)

(** A naive [datetime.datetime], as the number of seconds from the origin
    of the time axis to it; a POSIX timestamp as returned by
    [os.path.getmtime] and [time.time]; and a calendar date, as the number
    of its day. *)
Definition datetime := Z.
Definition timestamp := Z.
Definition date := Z.

(** [d.date()]: the calendar date of an instant. *)
Definition date_of (d : datetime) : date := d / 86400.

(** An exception of class [Exception], by the class that the [except]
    clauses see and by its text, which is what [str] gives for it (for a
    [KeyError] that is Python's [repr] of the key, quotes and escapes
    included).  The classes are those [run] tells apart, in the order of its
    [except] clauses, the two that the server-date fallback catches, and the
    one argparse takes from a [type] function; an exception of a subclass
    counts as one of its class.  Every other exception is an [OtherError]
    with the name of its class.  [BalanceError] is imported from the
    package; it carries the expected and the computed balance. *)
Inductive exn : Type :=
| KeyError (text : string)
| TypeError (text : string)
| ValueError (text : string)
| BalanceError (expected actual : Q) (text : string)
| AttributeError (text : string)
| FileNotFoundError (text : string)
| ArgumentTypeError (text : string)
| OtherError (cls text : string).

(** [str(err)] *)
Definition str_exn (e : exn) : string :=
  match e with
  | KeyError t | TypeError t | ValueError t | AttributeError t
  | FileNotFoundError t | ArgumentTypeError t => t
  | BalanceError _ _ t => t
  | OtherError _ t => t
  end.

(** The result of a call: a value, or a raised exception. *)
Inductive result (A : Type) : Type :=
| Val (a : A)
| Raise (e : exn).
Arguments Val {A} a.
Arguments Raise {A} e.

Definition is_val {A} (r : result A) : bool :=
  match r with Val _ => true | Raise _ => false end.

Definition rbind {A B} (r : result A) (f : A -> result B) : result B :=
  match r with Val a => f a | Raise e => Raise e end.

(** Values found in a mapping dict: options of the CSV reader and the
    field entries (a literal, a column name, or a function of the row). *)
Inductive pyval : Type :=
| PyNone
| PyBool (b : bool)
| PyInt (n : Z)
| PyInf
| PyStr (s : string)
| PyFunc (f : gmap string string -> string).

(** [d.get(key, default)] *)
Definition dict_get (d : gmap string pyval) (key : string) (dflt : pyval) : pyval :=
  match d !! key with
  | Some v => v
  | None => dflt
  end.

(** Truth value of a [str] and of an optional [str] ([None] and the empty
    string are false). *)
Definition nonempty (s : string) : bool :=
  match s with EmptyString => false | String _ _ => true end.

Definition truthy (o : option string) : bool :=
  match o with Some s => nonempty s | None => false end.

(** ** Lazy sequences and rendered sections *)

(** A generator, by what draining it gives: the fragments it yields, and
    the exception that ends it when it does not finish normally. *)
Definition stream (A : Type) : Type := (list A * option exn)%type.

Definition stream_nil {A} : stream A := ([], None).

(** [itertools.chain]: the second stream starts only when the first has
    finished normally. *)
Definition chain {A} (x y : stream A) : stream A :=
  match snd x with
  | Some e => x
  | None => (fst x ++ fst y, snd y)
  end.

(** What [header], [gen_body] and [footer] may return. *)
Inductive section : Type :=
| SNone
| SStr (s : string)
| SList (l : list string)
| SGen (g : stream string).

(** Truth value, as [filter(None, ...)] sees it: [None], the empty string
    and the empty list are false, a generator object is always true. *)
Definition section_truthy (s : section) : bool :=
  match s with
  | SNone => false
  | SStr t => nonempty t
  | SList l => match l with [] => false | _ => true end
  | SGen _ => true
  end.

(** Iterating a [str] yields its characters. *)
Fixpoint chars (s : string) : list string :=
  match s with
  | EmptyString => []
  | String a t => String a EmptyString :: chars t
  end.

(** [iter(section)] *)
Definition iterate (s : section) : stream string :=
  match s with
  | SNone => ([], Some (TypeError "'NoneType' object is not iterable"))
  | SStr t => (chars t, None)
  | SList l => (l, None)
  | SGen g => g
  end.

(** [itertools.chain.from_iterable] *)
Definition chain_from_iterable (l : list section) : stream string :=
  fold_right (fun s acc => chain (iterate s) acc) stream_nil l.

(** The text of a list of fragments. *)
Definition text_of (l : list string) : string :=
  fold_right String.append EmptyString l.

(** ** The command line *)

(** What the user wrote on the command line, as argparse meets it: the
    two positional arguments as argparse assigns them, the options in the
    order in which they are written, and the arguments argparse recognises
    as neither.  An option may be written more than once.  The value of an
    option declared with [type=int] or [type=float] is a number here; an
    occurrence whose value is not one, or that lacks its value, is a
    [Refused] occurrence with the name of the option and the text that is
    refused. *)
Module Cli.

Inductive opt : Type :=
| Account (v : string)
| Institution (v : string)
| End (v : string)
| EndingBalance (v : Q)
| Language (v : string)
| Start (v : string)
| Dayfirst
| Mapping (v : string)
| Custom (path : string)
| Collapse (v : string)
| Chunksize (n : Z)
| FirstRow (n : Z)
| LastRow (n : Z)
| FirstCol (n : Z)
| ListMappings
| Version
| Qif
| Strict
| Overwrite
| ServerDate (v : string)
| Encoding (v : string)
| Debug
| Verbose
| Help
| Refused (flag value : string).

Record t : Type := mk {
  source : option string;
  dest : option string;
  opts : list opt;
  extra : list string
}.

(** The value an option has when all the occurrences have been stored:
    that of the last one. *)
Definition last_of {A : Type} (f : opt -> option A) (l : list opt) : option A :=
  fold_right (fun o later => match later with Some v => Some v | None => f o end)
    None l.

Definition account_type (c : t) : option string :=
  last_of (fun o => match o with Account v => Some v | _ => None end) (opts c).
Definition institution (c : t) : option string :=
  last_of (fun o => match o with Institution v => Some v | _ => None end) (opts c).
Definition end_ (c : t) : option string :=
  last_of (fun o => match o with End v => Some v | _ => None end) (opts c).
Definition ending_balance (c : t) : option Q :=
  last_of (fun o => match o with EndingBalance v => Some v | _ => None end) (opts c).
Definition language (c : t) : option string :=
  last_of (fun o => match o with Language v => Some v | _ => None end) (opts c).
Definition start (c : t) : option string :=
  last_of (fun o => match o with Start v => Some v | _ => None end) (opts c).
Definition mapping (c : t) : option string :=
  last_of (fun o => match o with Mapping v => Some v | _ => None end) (opts c).
Definition custom (c : t) : option string :=
  last_of (fun o => match o with Custom p => Some p | _ => None end) (opts c).
Definition collapse (c : t) : option string :=
  last_of (fun o => match o with Collapse v => Some v | _ => None end) (opts c).
Definition chunksize (c : t) : option Z :=
  last_of (fun o => match o with Chunksize n => Some n | _ => None end) (opts c).
Definition first_row (c : t) : option Z :=
  last_of (fun o => match o with FirstRow n => Some n | _ => None end) (opts c).
Definition last_row (c : t) : option Z :=
  last_of (fun o => match o with LastRow n => Some n | _ => None end) (opts c).
Definition first_col (c : t) : option Z :=
  last_of (fun o => match o with FirstCol n => Some n | _ => None end) (opts c).
Definition server_date (c : t) : option string :=
  last_of (fun o => match o with ServerDate v => Some v | _ => None end) (opts c).
Definition encoding (c : t) : option string :=
  last_of (fun o => match o with Encoding v => Some v | _ => None end) (opts c).

(** A flag is set when it is written at least once. *)
Definition dayfirst (c : t) : bool :=
  existsb (fun o => match o with Dayfirst => true | _ => false end) (opts c).
Definition list_mappings (c : t) : bool :=
  existsb (fun o => match o with ListMappings => true | _ => false end) (opts c).
Definition version (c : t) : bool :=
  existsb (fun o => match o with Version => true | _ => false end) (opts c).
Definition qif (c : t) : bool :=
  existsb (fun o => match o with Qif => true | _ => false end) (opts c).
Definition strict (c : t) : bool :=
  existsb (fun o => match o with Strict => true | _ => false end) (opts c).
Definition overwrite (c : t) : bool :=
  existsb (fun o => match o with Overwrite => true | _ => false end) (opts c).
Definition debug (c : t) : bool :=
  existsb (fun o => match o with Debug => true | _ => false end) (opts c).
Definition verbose (c : t) : bool :=
  existsb (fun o => match o with Verbose => true | _ => false end) (opts c).

End Cli.

(** The namespace [parser.parse_args] returns, the declared defaults
    filled in.  [custom] holds the [mapping] of the module that
    [load_custom_module] loaded. *)
Module Args.
Record t : Type := mk {
  source : option string;
  dest : option string;
  account_type : option string;
  institution : option string;
  end_ : string;
  ending_balance : option Q;
  language : string;
  start : option string;
  dayfirst : bool;
  mapping : string;
  custom : option (gmap string pyval);
  collapse : option string;
  chunksize : Z;
  first_row : Z;
  last_row : pyval;
  first_col : Z;
  list_mappings : bool;
  version : bool;
  qif : bool;
  strict : bool;
  overwrite : bool;
  server_date : option string;
  encoding : string;
  debug : bool;
  verbose : bool
}.
End Args.

(** [TYPES], the choices of [-a/--account]. *)
Definition TYPES : list string :=
  ["CHECKING"; "SAVINGS"; "MONEYMRKT"; "CREDITLINE"; "Bank"; "Cash"].

Definition in_choices (choices : list string) (v : string) : bool :=
  existsb (String.eqb v) choices.

(** The keyword arguments of the renderer ([okwargs]), of [read_csv]
    ([ckwargs]) and of [write] ([kwargs]). *)
Module Okw.
Record t : Type := mk {
  def_type : string;
  start : option datetime;
  end_ : option datetime;
  strict : bool;
  institution : option string
}.
End Okw.

Module Ckw.
Record t : Type := mk {
  has_header : bool;
  custom_header : pyval;
  delimiter : pyval;
  first_row : pyval;
  last_row : pyval;
  first_col : pyval
}.
End Ckw.

Module Wkw.
Record t : Type := mk {
  overwrite : bool;
  chunksize : Z;
  encoding : string
}.
End Wkw.

(** The source object: an opened file has its path as [name]; what stands
    for [sys.stdin] may have none. *)
Record source_obj : Type := { name : option string }.

(** ** Effects *)

Inductive stage : Type :=
| ReadCsv | GenGroups | GenTrxns | CleanTrxns | GenData | GenBody
| Header | Footer | Write.

Definition stage_eqb (a b : stage) : bool :=
  match a, b with
  | ReadCsv, ReadCsv | GenGroups, GenGroups | GenTrxns, GenTrxns
  | CleanTrxns, CleanTrxns | GenData, GenData | GenBody, GenBody
  | Header, Header | Footer, Footer | Write, Write => true
  | _, _ => false
  end.

(** What [run] does that can be observed: what it prints, the files it
    opens and closes, and each call of a pipeline stage with whether the
    call returned ([true]) or raised ([false]).  A usage error of the
    argument parser is recorded with the option and the text it is about;
    the wording of the message is argparse's. *)
Inductive event : Type :=
| EvPrint (s : string)
| EvUsage (flag value : string)
| EvOpenSource (path : string)
| EvOpenDest (path : string)
| EvCall (s : stage) (returned : bool)
| EvCloseSource
| EvCloseDest
| EvTraceback
| EvPrintHelp.

Record state : Type := {
  source_open : bool;
  dest_open : bool;
  written : string;
  log : list event
}.

Definition init : state :=
  {| source_open := false; dest_open := false; written := EmptyString; log := [] |}.

Definition set_source_open (b : bool) (s : state) : state :=
  {| source_open := b; dest_open := dest_open s; written := written s; log := log s |}.

Definition set_dest_open (b : bool) (s : state) : state :=
  {| source_open := source_open s; dest_open := b; written := written s; log := log s |}.

Definition add_written (t : string) (s : state) : state :=
  {| source_open := source_open s; dest_open := dest_open s;
     written := written s +:+ t; log := log s |}.

Definition add_event (e : event) (s : state) : state :=
  {| source_open := source_open s; dest_open := dest_open s;
     written := written s; log := log s ++ [e] |}.

(** The argument of [sys.exit]. *)
Inductive exit_arg : Type :=
| ExitInt (n : Z)
| ExitStr (msg : string)
| ExitExn (e : exn).

(** The process exit status: an integer is the status, anything else is
    printed to stderr and the status is 1. *)
Definition exit_status (x : exit_arg) : Z :=
  match x with
  | ExitInt n => n
  | ExitStr _ | ExitExn _ => 1
  end.

(** A computation returns, raises an exception of class [Exception], or
    raises [SystemExit], which no [except Exception] clause catches. *)
Inductive step (A : Type) : Type :=
| Done (a : A)
| Thrown (e : exn)
| Exited (x : exit_arg).
Arguments Done {A} a.
Arguments Thrown {A} e.
Arguments Exited {A} x.

Definition M (A : Type) : Type := state -> step A * state.

Definition ret {A} (a : A) : M A := fun s => (Done a, s).

Definition bind {A B} (m : M A) (k : A -> M B) : M B :=
  fun s =>
    match m s with
    | (Done a, s1) => k a s1
    | (Thrown e, s1) => (Thrown e, s1)
    | (Exited x, s1) => (Exited x, s1)
    end.

Notation "x <~ m ;; k" := (bind m (fun x => k))
  (at level 200, m at level 99, k at level 200, right associativity).
Notation "m ;;; k" := (bind m (fun _ => k))
  (at level 200, k at level 200, right associativity).

Definition throw {A} (e : exn) : M A := fun s => (Thrown e, s).
Definition sys_exit {A} (x : exit_arg) : M A := fun s => (Exited x, s).
Definition emit (e : event) : M unit := fun s => (Done tt, add_event e s).

Definition lift {A} (r : result A) : M A :=
  match r with
  | Val a => ret a
  | Raise e => throw e
  end.

(** A call of a pipeline stage, recorded in the log. *)
Definition call {A} (st : stage) (r : result A) : M A :=
  emit (EvCall st (is_val r)) ;;; lift r.

(** [try: m  except Exception as err: h err] *)
Definition try_except {A} (m : M A) (h : exn -> M A) : M A :=
  fun s =>
    match m s with
    | (Thrown e, s1) => h e s1
    | r => r
    end.

(** [try: ... finally: cleanup; sys.exit(msg)], where the body binds
    [msg] on every path on which it returns. *)
Definition finally_exit {A} (body : M exit_arg) (cleanup : M unit) : M A :=
  fun s =>
    match body s with
    | (Done msg, s1) => (cleanup ;;; sys_exit msg) s1
    | (Thrown e, s1) =>
        (cleanup ;;; throw (OtherError "UnboundLocalError" "msg")) s1
    | (Exited x, s1) =>
        (cleanup ;;; throw (OtherError "UnboundLocalError" "msg")) s1
    end.

Definition when (b : bool) (m : M unit) : M unit :=
  if b then m else ret tt.

Definition close_source : M unit :=
  fun s => (Done tt, add_event EvCloseSource (set_source_open false s)).

Definition close_dest : M unit :=
  fun s => (Done tt, add_event EvCloseDest (set_dest_open false s)).

(** ** The collaborators of [run] *)

Section Main.

(** What flows between the stages is opaque to [run]: the records of
    [read_csv], the groups, the transactions, the cleaned transactions and
    the data of [utils.gen_data]. *)
Context {records groups trxns cleaned data : Type}.

(** A renderer object ([QIF(...)] or [OFX(...)]), by the attributes and
    methods [run] uses.  A method returns or raises when it is called;
    what it raises later, when the generator it returned is drained, is
    part of the [stream] inside the [section]. *)
Record container : Type := {
  has_header : bool;
  custom_header : pyval;
  gen_groups : records -> Z -> result groups;
  gen_trxns : groups -> option string -> result trxns;
  clean_trxns : trxns -> result cleaned;
  gen_body : data -> result section;
  header : datetime -> string -> result section;
  footer : datetime -> option Q -> result section
}.

(** Everything else [run] reaches outside the module: the clock, the
    mapping modules, [dateutil.parser.parse], the two renderer classes, the
    file system, [meza.io.read_csv], [utils.gen_data] and [meza.io.write].
    The writer is given by what a call
    [write(dest, IterStringIO(content), **kwargs)] does: the text it has put
    into the destination when it returns or raises, and the count it
    returns or the exception it raises; how it reads the content, in pieces
    of [chunksize] or at once, is its own business. *)
Record env : Type := {
  now_str : string;
  MODULES : list string;
  version : string;
  load_package_module : string -> result (gmap string pyval);
  load_custom_module : string -> result (gmap string pyval);
  parse : string -> bool -> result datetime;
  QIF : gmap string pyval -> Okw.t -> result container;
  OFX : gmap string pyval -> Okw.t -> result container;
  open_read : string -> string -> result unit;
  stdin : source_obj;
  read_csv : source_obj -> Ckw.t -> result records;
  gen_data : cleaned -> result data;
  getmtime : string -> result timestamp;
  time_time : timestamp;
  fromtimestamp : timestamp -> datetime;
  open_write : string -> string -> result unit;
  write : option string -> stream string -> Wkw.t -> string * result Z
}.

Variable E : env.

(** ** [parser.parse_args] *)

(** [parser.error]: the usage and a message about the argument go to
    stderr, the status is 2. *)
Definition parser_error {A} (flag value : string) : M A :=
  emit (EvUsage flag value) ;;; sys_exit (ExitInt 2).

(** An option declared with [choices]: a given value outside the choices
    is an error; a default is not checked. *)
Definition check_choice (flag : string) (choices : list string) (v : string)
    : M unit :=
  if in_choices choices v then ret tt else parser_error flag v.

(** [type=load_custom_module]: the file is loaded when the option is met;
    argparse turns an [ArgumentTypeError], a [TypeError] or a [ValueError]
    of the conversion into a usage error and lets any other exception
    through. *)
Definition convert_custom (path : string) : M (gmap string pyval) :=
  match load_custom_module E path with
  | Val m => ret m
  | Raise (ArgumentTypeError _) | Raise (TypeError _) | Raise (ValueError _) =>
      parser_error "-x/--custom" path
  | Raise e => throw e
  end.

Definition or_default {A} (given : option A) (dflt : A) : A :=
  match given with Some v => v | None => dflt end.

(** The namespace: what was given, and the declared default of every
    option that was not. *)
Definition namespace (c : Cli.t) (custom : option (gmap string pyval)) : Args.t :=
  {| Args.source := Cli.source c;
     Args.dest := Cli.dest c;
     Args.account_type := Cli.account_type c;
     Args.institution := Cli.institution c;
     Args.end_ := or_default (Cli.end_ c) (now_str E);
     Args.ending_balance := Cli.ending_balance c;
     Args.language := or_default (Cli.language c) "ENG";
     Args.start := Cli.start c;
     Args.dayfirst := Cli.dayfirst c;
     Args.mapping := or_default (Cli.mapping c) "default";
     Args.custom := custom;
     Args.collapse := Cli.collapse c;
     Args.chunksize := or_default (Cli.chunksize c) (2 ^ 14);
     Args.first_row := or_default (Cli.first_row c) 0;
     Args.last_row :=
       match Cli.last_row c with Some n => PyInt n | None => PyInf end;
     Args.first_col := or_default (Cli.first_col c) 0;
     Args.list_mappings := Cli.list_mappings c;
     Args.version := Cli.version c;
     Args.qif := Cli.qif c;
     Args.strict := Cli.strict c;
     Args.overwrite := Cli.overwrite c;
     Args.server_date := Cli.server_date c;
     Args.encoding := or_default (Cli.encoding c) "utf-8";
     Args.debug := Cli.debug c;
     Args.verbose := Cli.verbose c |}.

Fixpoint join (sep : string) (l : list string) : string :=
  match l with
  | [] => EmptyString
  | [x] => x
  | x :: rest => x +:+ sep +:+ join sep rest
  end.

(** What argparse does when it meets an option: the value is converted and
    checked at once, [-h] prints the help and exits with 0, every other
    option is stored.  [custom] is the module the last [-x] so far has
    given. *)
Definition take_action (o : Cli.opt) (custom : option (gmap string pyval))
    : M (option (gmap string pyval)) :=
  match o with
  | Cli.Account v => check_choice "-a/--account" TYPES v ;;; ret custom
  | Cli.Mapping v => check_choice "-m/--mapping" (MODULES E) v ;;; ret custom
  | Cli.Custom path => m <~ convert_custom path ;; ret (Some m)
  | Cli.Help => emit EvPrintHelp ;;; sys_exit (ExitInt 0)
  | Cli.Refused flag value => parser_error flag value
  | _ => ret custom
  end.

(** The options are taken in the order of the command line. *)
Fixpoint consume_optionals (l : list Cli.opt) (custom : option (gmap string pyval))
    : M (option (gmap string pyval)) :=
  match l with
  | [] => ret custom
  | o :: rest =>
      custom' <~ take_action o custom ;;
      consume_optionals rest custom'
  end.

(** [parser.parse_args]: when every option has been taken, an argument
    that was not recognised is an error. *)
Definition parse_args (c : Cli.t) : M Args.t :=
  custom <~ consume_optionals (Cli.opts c) None ;;
  match Cli.extra c with
  | [] => ret (namespace c custom)
  | _ => parser_error "unrecognized arguments" (join " " (Cli.extra c))
  end.

(** The occurrences that argparse goes past. *)
Definition accepted (o : Cli.opt) : bool :=
  match o with
  | Cli.Account v => in_choices TYPES v
  | Cli.Mapping v => in_choices (MODULES E) v
  | Cli.Custom path => is_val (load_custom_module E path)
  | Cli.Help => false
  | Cli.Refused _ _ => false
  | _ => true
  end.

(** ** [run], piece by piece *)

(** [args.account_type or ("Bank" if args.qif else "CHECKING")] *)
Definition def_type_of (a : Args.t) : string :=
  if truthy (Args.account_type a)
  then or_default (Args.account_type a) EmptyString
  else if Args.qif a then "Bank" else "CHECKING".

(** [parse(text, dayfirst=args.dayfirst) if text else None] *)
Definition parse_opt (a : Args.t) (text : option string) : result (option datetime) :=
  match text with
  | Some t =>
      if nonempty t
      then rbind (parse E t (Args.dayfirst a)) (fun d => Val (Some d))
      else Val None
  | None => Val None
  end.

Definition okwargs (a : Args.t) : result Okw.t :=
  rbind (parse_opt a (Args.start a)) (fun st =>
  rbind (parse_opt a (Some (Args.end_ a))) (fun en =>
  Val {| Okw.def_type := def_type_of a;
         Okw.start := st;
         Okw.end_ := en;
         Okw.strict := Args.strict a;
         Okw.institution := Args.institution a |})).

Definition ckwargs (a : Args.t) (cont : container) (mapping : gmap string pyval) : Ckw.t :=
  {| Ckw.has_header := has_header cont;
     Ckw.custom_header := custom_header cont;
     Ckw.delimiter := dict_get mapping "delimiter" (PyStr ",");
     Ckw.first_row := dict_get mapping "first_row" (PyInt (Args.first_row a));
     Ckw.last_row := dict_get mapping "last_row" (Args.last_row a);
     Ckw.first_col := dict_get mapping "first_col" (PyInt (Args.first_col a)) |}.

(** [builtins.open(args.source, encoding=args.encoding) if args.source
    else sys.stdin] *)
Definition open_source (a : Args.t) : M source_obj :=
  match Args.source a with
  | Some path =>
      if nonempty path then
        lift (open_read E path (Args.encoding a)) ;;;
        (fun s => (Done {| name := Some path |},
                   add_event (EvOpenSource path) (set_source_open true s)))
      else ret (stdin E)
  | None => ret (stdin E)
  end.

(** [builtins.open(args.dest, "w", encoding=args.encoding) if args.dest
    else sys.stdout] *)
Definition open_dest (a : Args.t) : M unit :=
  match Args.dest a with
  | Some path =>
      if nonempty path then
        lift (open_write E path (Args.encoding a)) ;;;
        (fun s => (Done tt, add_event (EvOpenDest path) (set_dest_open true s)))
      else ret tt
  | None => ret tt
  end.

(** [_time_from_file(source.name)] *)
Definition _time_from_file (source : source_obj) : result timestamp :=
  match name source with
  | Some path => getmtime E path
  | None => Raise (AttributeError "object has no attribute 'name'")
  end.

(** Lines 279-287: the date of the header and of the footer. *)
Definition server_date_of (a : Args.t) (source : source_obj) : M datetime :=
  if truthy (Args.server_date a) then
    lift (parse E (or_default (Args.server_date a) EmptyString) (Args.dayfirst a))
  else
    mtime <~ try_except (lift (_time_from_file source))
               (fun err =>
                  match err with
                  | AttributeError _ | FileNotFoundError _ => ret (time_time E)
                  | _ => throw err
                  end) ;;
    ret (fromtimestamp E mtime).

(** Lines 272-277: the stages, each fed with the result of the one
    before. *)
Definition gen_pipeline (a : Args.t) (cont : container) (source : source_obj)
    (ckw : Ckw.t) : M section :=
  records <~ call ReadCsv (read_csv E source ckw) ;;
  groups <~ call GenGroups (gen_groups cont records (Args.chunksize a)) ;;
  trxns <~ call GenTrxns (gen_trxns cont groups (Args.collapse a)) ;;
  cleaned_trxns <~ call CleanTrxns (clean_trxns cont trxns) ;;
  data <~ call GenData (gen_data E cleaned_trxns) ;;
  call GenBody (gen_body cont data).

(** Lines 291-292: [filter(None, [header, body, footer])] chained. *)
Definition content_of (header body footer : section) : stream string :=
  chain_from_iterable (List.filter section_truthy [header; body; footer]).

(** The body of the first [try] (lines 272-297). *)
Definition build_content (a : Args.t) (cont : container) (source : source_obj)
    (ckw : Ckw.t) : M (stream string * Wkw.t) :=
  body <~ gen_pipeline a cont source ckw ;;
  server_date <~ server_date_of a source ;;
  header <~ call Header (header cont server_date (Args.language a)) ;;
  footer <~ call Footer (footer cont server_date (Args.ending_balance a)) ;;
  ret (content_of header body footer,
       {| Wkw.overwrite := Args.overwrite a;
          Wkw.chunksize := Args.chunksize a;
          Wkw.encoding := Args.encoding a |}).

(** Line 309, [write(dest, IterStringIO(content), **kwargs)]: what the
    writer has put into the destination is there whether it returns or
    raises. *)
Definition call_write (a : Args.t) (content : stream string) (kw : Wkw.t) : M Z :=
  fun s =>
    call Write (snd (write E (Args.dest a) content kw))
      (add_written (fst (write E (Args.dest a) content kw)) s).

(** The [except] clauses of the second [try] (lines 310-328), in order. *)
Definition report (a : Args.t) (err : exn) : M exit_arg :=
  match err with
  | KeyError _ =>
      emit EvTraceback ;;;
      ret (ExitStr ("Field " +:+ str_exn err
                    +:+ " is missing from file. Check `mapping` option."))
  | TypeError _ =>
      ret (ExitStr ("No data to write. " +:+ str_exn err +:+ ". "
                    +:+ (if truthy (Args.collapse a)
                         then "Check `start` and `end` options."
                         else "Try again with `-c` option.")))
  | ValueError _ =>
      emit EvPrintHelp ;;;
      ret (ExitStr ("Possible mapping problem: " +:+ str_exn err +:+ "."))
  | BalanceError _ _ _ =>
      ret (ExitStr (str_exn err +:+ ".  Try again with `--ending-balance` option."))
  | _ =>
      emit EvTraceback ;;;
      ret (ExitInt 1)
  end.

(** The [else] clause (line 330). *)
Definition report_written (res : Z) : exit_arg :=
  if (res =? 0)%Z
  then ExitStr "No data to write. Check `start` and `end` options."
  else ExitInt 0.

(** Lines 302-334: open the destination, write, report, close, exit. *)
Definition write_out (a : Args.t) (content : stream string) (kw : Wkw.t) : M unit :=
  open_dest a ;;;
  finally_exit
    (try_except (res <~ call_write a content kw ;; ret (report_written res)) (report a))
    (when (truthy (Args.source a)) close_source ;;;
     when (truthy (Args.dest a)) close_dest).

(** Lines 247-257: the mapping, the renderer options and the renderer. *)
Definition load_mapping (a : Args.t) : result (gmap string pyval) :=
  match Args.custom a with
  | Some m => Val m
  | None => load_package_module E (Args.mapping a)
  end.

Definition make_container (a : Args.t) (mapping : gmap string pyval) : result container :=
  rbind (okwargs a) (fun okw =>
    if Args.qif a then QIF E mapping okw else OFX E mapping okw).

(** Lines 247-300: everything up to the content handed to [write]. *)
Definition prepare (a : Args.t) : M (stream string * Wkw.t) :=
  mapping <~ lift (load_mapping a) ;;
  cont <~ lift (make_container a mapping) ;;
  source <~ open_source a ;;
  try_except (build_content a cont source (ckwargs a cont mapping))
    (fun err =>
       when (truthy (Args.source a)) close_source ;;;
       sys_exit (ExitExn err)).

Definition run (c : Cli.t) : M unit :=
  args <~ parse_args c ;;
  if Args.debug args then
    emit (EvPrint "args") ;;; sys_exit (ExitInt 0)
  else if Args.version args then
    emit (EvPrint ("v" +:+ version E)) ;;; sys_exit (ExitInt 0)
  else if Args.list_mappings args then
    emit (EvPrint (join ", " (MODULES E))) ;;; sys_exit (ExitInt 0)
  else
    r <~ prepare args ;;
    write_out args (fst r) (snd r).

End Main.

Arguments container : clear implicits.
Arguments env : clear implicits.

(** ** The parts of the package that [run] calls

    [run] builds its pipeline from the renderer classes and from
    [utils.gen_data]; the date filter, the balance check and the
    validation of the account type live there. *)

(** Modelled from the spec: the Transaction of section 3, whose [date] is
    a calendar date. *)
Module Transaction.
Record t : Type := mk {
  date : date;
  amount : Q;
  payee : string;
  memo : string;
  category : string;
  check_id : string;
  splits : list (string * Q);
  account_type : string
}.
End Transaction.

(** Modelled from the spec: the Date/Range Filter of section 4.4, the
    [clean_trxns] of the renderer classes, which is not under src/:
    "[start]/[end] are inclusive calendar-date bounds; either may be omitted
    (unbounded)", the result an order-preserving subsequence.  The bounds
    are the instants that [run] hands over; what counts is their calendar
    date. *)
Definition in_window (start end_ : option datetime) (t : Transaction.t) : bool :=
  match start with
  | Some s => (date_of s <=? Transaction.date t)%Z
  | None => true
  end
  &&
  match end_ with
  | Some e => (Transaction.date t <=? date_of e)%Z
  | None => true
  end.

Definition date_filter (start end_ : option datetime) (l : list Transaction.t)
    : list Transaction.t :=
  List.filter (in_window start end_) l.

(** Modelled from the spec: the fixed closed set of account types of each
    format (section 4.6), which is declared in the renderer classes, not
    under src/: checking, savings, money-market and credit-line for the
    OFX grammar, the two values Bank and Cash for the QIF grammar. *)
Definition OFX_TYPES : list string :=
  ["CHECKING"; "SAVINGS"; "MONEYMRKT"; "CREDITLINE"].
Definition QIF_TYPES : list string := ["Bank"; "Cash"].

Definition format_types (qif : bool) : list string :=
  if qif then QIF_TYPES else OFX_TYPES.

(** Modelled from the spec: the validation of the account type "at
    header-generation time, failing with an UnsupportedAccountType error
    otherwise" (section 4.6); the [header] methods are not under src/. *)
Definition check_account_type (qif : bool) (account_type : string) : result unit :=
  if in_choices (format_types qif) account_type then Val tt
  else Raise (OtherError "UnsupportedAccountType" account_type).

(** Modelled from the spec: the strict-mode gate of the header (sections
    4.6 and 8), not under src/: with [strict] and no institution id the
    header fails with MissingRequiredField. *)
Definition check_required (okw : Okw.t) : result unit :=
  if Okw.strict okw && negb (truthy (Okw.institution okw))
  then Raise (OtherError "MissingRequiredField" "institution")
  else Val tt.

Section Spec.

(** The tolerance of the balance check, the text of a [BalanceError] and
    the two text grammars are not fixed by the spec; the header and the
    footer are a text, possibly empty. *)
Variable epsilon : Q.
Variable balance_message : Q -> Q -> string.
Variable render_header : bool -> Okw.t -> datetime -> string -> string.
Variable render_trxn : bool -> Transaction.t -> Q -> string.
Variable render_footer : bool -> datetime -> option Q -> string.

(** Modelled from the spec: the Balance Aggregator of section 4.5
    ([utils.gen_data], not under src/): the running balance is the
    cumulative signed sum in sequence order from the opening balance, the
    final balance the sum after the last transaction. *)
Fixpoint running (opening : Q) (l : list Transaction.t) : list (Transaction.t * Q) :=
  match l with
  | [] => []
  | t :: rest =>
      let b := (opening + Transaction.amount t)%Q in
      (t, b) :: running b rest
  end.

Definition final_balance (opening : Q) (l : list Transaction.t) : Q :=
  fold_left (fun b t => (b + Transaction.amount t)%Q) l opening.

(** Modelled from the spec: "When an expected ending balance is supplied
    externally and strict mode is enabled, compares it to [final_balance]
    within a small epsilon and fails with BalanceMismatch (a distinguished
    error kind) on disagreement"; the error includes both values
    (section 7). *)
Definition reconcile (strict : bool) (expected : option Q) (final : Q) : option exn :=
  match expected with
  | Some e =>
      if strict && negb (Qle_bool (Qabs (final - e)) epsilon)
      then Some (BalanceError e final (balance_message e final))
      else None
  | None => None
  end.

(** Modelled from the spec: the aggregator is a lazy producer (section 5),
    so the check is made when the writer has pulled the last transaction:
    the stream yields every transaction with its running balance and then
    ends with the error, if any. *)
Definition aggregate (strict : bool) (expected : option Q) (opening : Q)
    (l : list Transaction.t) : stream (Transaction.t * Q) :=
  (running opening l, reconcile strict expected (final_balance opening l)).

(** Modelled from the spec: the body is one fragment per transaction, in
    sequence order, produced lazily (section 4.6). *)
Definition body_of (qif : bool) (d : stream (Transaction.t * Q)) : section :=
  SGen (map (fun p => render_trxn qif (fst p) (snd p)) (fst d), snd d).

Context {R G : Type}.
Variable group_rows : R -> Z -> result G.
Variable normalize : gmap string pyval -> G -> option string -> result (list Transaction.t).

(** Modelled from the spec: a renderer of section 4.6 over the stages of
    sections 4.2-4.4; the renderer classes are not under src/.  The header
    validates the account type, then the strict-mode fields. *)
Definition spec_container (qif : bool) (mapping : gmap string pyval) (okw : Okw.t)
    : container R G (list Transaction.t) (list Transaction.t) (stream (Transaction.t * Q)) :=
  {| has_header := true;
     custom_header := PyNone;
     gen_groups := group_rows;
     gen_trxns := normalize mapping;
     clean_trxns := fun l => Val (date_filter (Okw.start okw) (Okw.end_ okw) l);
     gen_body := fun d => Val (body_of qif d);
     header := fun d lang =>
       rbind (check_account_type qif (Okw.def_type okw)) (fun _ =>
       rbind (check_required okw) (fun _ =>
       Val (SStr (render_header qif okw d lang))));
     footer := fun d b => Val (SStr (render_footer qif d b)) |}.

(** The collaborators of [B] with the renderers and the aggregator of the
    spec in place of its own.  [run] hands [utils.gen_data] the
    transactions only: the strict flag and the expected ending balance are
    "supplied externally" (section 4.5), they are part of the world in which
    a command line is run. *)
Definition spec_env
    (B : env R G (list Transaction.t) (list Transaction.t) (stream (Transaction.t * Q)))
    (strict : bool) (expected : option Q)
    : env R G (list Transaction.t) (list Transaction.t) (stream (Transaction.t * Q)) :=
  {| now_str := now_str B;
     MODULES := MODULES B;
     version := version B;
     load_package_module := load_package_module B;
     load_custom_module := load_custom_module B;
     parse := parse B;
     QIF := fun m okw => Val (spec_container true m okw);
     OFX := fun m okw => Val (spec_container false m okw);
     open_read := open_read B;
     stdin := stdin B;
     read_csv := read_csv B;
     gen_data := fun l => Val (aggregate strict expected 0 l);
     getmtime := getmtime B;
     time_time := time_time B;
     fromtimestamp := fromtimestamp B;
     open_write := open_write B;
     write := write B |}.

End Spec.

(** ** A small world to run the program in

    One source file, [in.csv], whose transactions the reader hands over as
    they are; a date parser that knows a handful of dates; a mapping that
    sets the delimiter and the first row; renderers with a one-line header
    and footer for OFX and none for QIF; a writer that reads the whole
    content before it writes. *)
Module Example.

Definition T := Transaction.t.

Definition trxn (d : date) (a : Q) (payee : string) : T :=
  {| Transaction.date := d;
     Transaction.amount := a;
     Transaction.payee := payee;
     Transaction.memo := EmptyString;
     Transaction.category := EmptyString;
     Transaction.check_id := EmptyString;
     Transaction.splits := [("Checking", a)];
     Transaction.account_type := "CHECKING" |}.

(** Midnight of the day [n], days being counted from 1970-01-01. *)
Definition midnight (n : date) : datetime := n * 86400.

(** The row of the scenarios of the spec: 2021-01-01, -50.00, Store. *)
Definition store : T := trxn 18628 (-50) "Store".

(** A transaction dated 2027-01-15, after the day the program is run. *)
Definition later : T := trxn 20833 20 "Rent".

(** The parser is built on 2026-11-04 at half past nine. *)
Definition now : string := "2026-11-04 09:30:00.000000".
Definition today : date := 20761.

Definition parse_date (text : string) (dayfirst : bool) : result datetime :=
  if String.eqb text "2020-12-31" then Val (midnight 18627)
  else if String.eqb text "2021-01-01" then Val (midnight 18628)
  else if String.eqb text "2021-12-31" then Val (midnight 18992)
  else if String.eqb text now then Val (midnight today + 34200)
  else Raise (ValueError ("Unknown string format: " +:+ text)).

(** A writer that reads the content to its end before it writes: a chunk
    size that [itertools.islice] refuses and an exception of the content
    come out of it with nothing written; otherwise the text is written and
    its length returned. *)
Definition buffered_write (dest : option string) (content : stream string)
    (kw : Wkw.t) : string * result Z :=
  if ((Wkw.chunksize kw <? 0) || (2 ^ 63 <=? Wkw.chunksize kw))%Z
  then (EmptyString, Raise (ValueError "Stop argument for islice() must be None or an integer"))
  else
    match snd content with
    | Some e => (EmptyString, Raise e)
    | None =>
        (text_of (fst content),
         Val (Z.of_nat (String.length (text_of (fst content)))))
    end.

Definition mapping : gmap string pyval :=
  <["delimiter" := PyStr ";"]> (<["first_row" := PyInt 1]> ∅).

Definition render_header (qif : bool) (okw : Okw.t) (d : datetime) (lang : string)
    : string :=
  if qif then EmptyString else "<OFX>" +:+ lang +:+ ";".

Definition render_trxn (qif : bool) (t : T) (balance : Q) : string :=
  Transaction.payee t +:+ ";".

Definition render_footer (qif : bool) (d : datetime) (balance : option Q) : string :=
  if qif then EmptyString else "</OFX>".

Definition balance_message (expected actual : Q) : string :=
  "Ending balance does not match the transactions".

Definition epsilon : Q := 1 # 1000.

(** The collaborators outside the package. *)
Definition base (rows : list T)
    : env (list T) (list T) (list T) (list T) (stream (T * Q)) :=
  {| now_str := now;
     MODULES := ["default"; "mint"];
     version := "0.34.0";
     load_package_module := fun _ => Val mapping;
     load_custom_module := fun p => Raise (FileNotFoundError p);
     parse := parse_date;
     QIF := fun _ _ => Raise (OtherError "NotImplementedError" "QIF");
     OFX := fun _ _ => Raise (OtherError "NotImplementedError" "OFX");
     open_read := fun path _ =>
       if String.eqb path "in.csv" then Val tt else Raise (FileNotFoundError path);
     stdin := {| name := Some "<stdin>" |};
     read_csv := fun _ _ => Val rows;
     gen_data := fun _ => Raise (OtherError "NotImplementedError" "gen_data");
     getmtime := fun path =>
       if String.eqb path "in.csv" then Val 1600000000
       else Raise (FileNotFoundError path);
     time_time := 1793784600;
     fromtimestamp := fun t => t;
     open_write := fun path _ =>
       if String.eqb path "out.ofx" then Val tt
       else Raise (OtherError "PermissionError" path);
     write := buffered_write |}.

Definition world (rows : list T) (strict : bool) (expected : option Q)
    : env (list T) (list T) (list T) (list T) (stream (T * Q)) :=
  spec_env epsilon balance_message render_header render_trxn render_footer
    (fun r _ => Val r) (fun _ g _ => Val g) (base rows) strict expected.

(** The renderer of the spec with the grammars above. *)
Definition renderer (qif : bool) (okw : Okw.t)
    : container (list T) (list T) (list T) (list T) (stream (T * Q)) :=
  spec_container render_header render_trxn render_footer
    (fun r _ => Val r) (fun _ g _ => Val g) qif mapping okw.

Definition okw0 : Okw.t :=
  {| Okw.def_type := "CHECKING"; Okw.start := None;
     Okw.end_ := Some (midnight today + 34200);
     Okw.strict := false; Okw.institution := None |}.

(** [csv2ofx in.csv out.ofx] *)
Definition cli : Cli.t :=
  {| Cli.source := Some "in.csv";
     Cli.dest := Some "out.ofx";
     Cli.opts := [];
     Cli.extra := [] |}.

(** The state in which [csv2ofx in.csv out.ofx] ends on one row. *)
Definition final : state :=
  {| source_open := false;
     dest_open := false;
     written := "<OFX>ENG;Store;</OFX>";
     log := [EvOpenSource "in.csv"; EvCall ReadCsv true; EvCall GenGroups true;
             EvCall GenTrxns true; EvCall CleanTrxns true; EvCall GenData true;
             EvCall GenBody true; EvCall Header true; EvCall Footer true;
             EvOpenDest "out.ofx"; EvCall Write true; EvCloseSource;
             EvCloseDest] |}.

(** The command line [c] with the options [l] written after its own. *)
Definition with_opts (l : list Cli.opt) (c : Cli.t) : Cli.t :=
  {| Cli.source := Cli.source c;
     Cli.dest := Cli.dest c;
     Cli.opts := Cli.opts c ++ l;
     Cli.extra := Cli.extra c |}.

Definition with_source (p : option string) (c : Cli.t) : Cli.t :=
  {| Cli.source := p;
     Cli.dest := Cli.dest c;
     Cli.opts := Cli.opts c;
     Cli.extra := Cli.extra c |}.

Definition with_dest (p : option string) (c : Cli.t) : Cli.t :=
  {| Cli.source := Cli.source c;
     Cli.dest := p;
     Cli.opts := Cli.opts c;
     Cli.extra := Cli.extra c |}.

(** The world in which the command line [c] is run on the rows [rows]. *)
Definition world_of (rows : list T) (c : Cli.t)
    : env (list T) (list T) (list T) (list T) (stream (T * Q)) :=
  world rows (Cli.strict c) (Cli.ending_balance c).

End Example.

(** The calls of stages a log records, in order, each with whether it
    returned. *)
Fixpoint calls_with (l : list event) : list (stage * bool) :=
  match l with
  | [] => []
  | EvCall st b :: rest => (st, b) :: calls_with rest
  | _ :: rest => calls_with rest
  end.

Definition calls_of (l : list event) : list stage :=
  map fst (calls_with l).

(** No stage is called after a call that raised. *)
Fixpoint no_call_after_failure (tr : list (stage * bool)) : bool :=
  match tr with
  | [] => true
  | (_, false) :: rest => match rest with [] => true | _ => false end
  | (_, true) :: rest => no_call_after_failure rest
  end.

Definition aborted_at_failure (l : list event) : bool :=
  no_call_after_failure (calls_with l).

(** The calls of the stages [sts], every one returning. *)
Definition all_returned (sts : list stage) : list (stage * bool) :=
  map (fun st => (st, true)) sts.

(** [follows sts tr]: the calls [tr] are calls of the stages [sts] in
    their order, from the first one on, none skipped and none repeated,
    and a call that raised is the last one. *)
Fixpoint follows (sts : list stage) (tr : list (stage * bool)) {struct tr} : bool :=
  match tr with
  | [] => true
  | (st', b) :: tr' =>
      match sts with
      | [] => false
      | st :: sts' =>
          stage_eqb st st'
          && (if b then follows sts' tr'
              else match tr' with [] => true | _ => false end)
      end
  end.

(** A computation that leaves both handles and the destination text as
    they are. *)
Definition same_files (s s1 : state) : Prop :=
  source_open s1 = source_open s
  /\ dest_open s1 = dest_open s
  /\ written s1 = written s.

(** The stages of the pipeline in the order of the source. *)
Definition STAGES : list stage :=
  [ReadCsv; GenGroups; GenTrxns; CleanTrxns; GenData; GenBody; Header; Footer; Write].

(** The stages of lines 272-277, and those of the first [try]. *)
Definition PIPELINE : list stage :=
  [ReadCsv; GenGroups; GenTrxns; CleanTrxns; GenData; GenBody].

Definition RENDERED : list stage := PIPELINE ++ [Header; Footer].

(** The stages of lines 272-277 as one function: each stage applied to
    the result of the stage before it, from the rows of the reader to the
    rendered body. *)
Definition stages_composed {records groups trxns cleaned data : Type}
    (E : env records groups trxns cleaned data) (a : Args.t)
    (cont : container records groups trxns cleaned data)
    (source : source_obj) (ckw : Ckw.t) : result section :=
  rbind (read_csv E source ckw) (fun rows =>
  rbind (gen_groups cont rows (Args.chunksize a)) (fun grouped =>
  rbind (gen_trxns cont grouped (Args.collapse a)) (fun converted =>
  rbind (clean_trxns cont converted) (fun kept =>
  rbind (gen_data E kept) (fun aggregated =>
  gen_body cont aggregated))))).

Definition handles_closed (s : state) : Prop :=
  source_open s = false /\ dest_open s = false.

(** What a section contributes to the output: nothing when it is omitted. *)
Definition contribution (s : section) : stream string :=
  if section_truthy s then iterate s else stream_nil.

(** The text of a section that is a value, not a generator that raises. *)
Definition section_text (s : section) : string :=
  match s with
  | SNone => EmptyString
  | SStr t => t
  | SList l => text_of l
  | SGen g => text_of (fst g)
  end.

(** [sub in text] *)
Fixpoint is_prefix (p s : string) : bool :=
  match p, s with
  | EmptyString, _ => true
  | String a p', String b s' => Ascii.eqb a b && is_prefix p' s'
  | String _ _, EmptyString => false
  end.

Fixpoint mentions (sub text : string) : bool :=
  is_prefix sub text
  || match text with
     | EmptyString => false
     | String _ rest => mentions sub rest
     end.


(** ** Events by kind *)

Definition is_source_event (e : event) : bool :=
  match e with
  | EvOpenSource _ | EvCloseSource => true
  | _ => false
  end.

Definition is_dest_event (e : event) : bool :=
  match e with
  | EvOpenDest _ | EvCloseDest => true
  | _ => false
  end.

(** [adds P m]: every event that [m] records satisfies [P]. *)
Definition adds {A} (P : event -> Prop) (m : M A) : Prop :=
  forall s r s1, m s = (r, s1) ->
  forall e, In e (log s1) -> In e (log s) \/ P e.

(** ** More command lines for the small world *)
Module Fixtures.

(** [csv2ofx] reading stdin and writing stdout. *)
Definition stdio : Cli.t :=
  Example.with_source None (Example.with_dest None Example.cli).

(** A world whose custom mapping [my.py] loads and whose [bad.py] is
    refused by the loader with a [ValueError]. *)
Definition custom_mapping : gmap string pyval :=
  <["delimiter" := PyStr "|"]> ∅.

Definition world_with_custom
    : env (list Example.T) (list Example.T) (list Example.T) (list Example.T)
        (stream (Example.T * Q)) :=
  let B := Example.world [Example.store] false None in
  {| now_str := now_str B;
     MODULES := MODULES B;
     version := version B;
     load_package_module := load_package_module B;
     load_custom_module := fun p =>
       if String.eqb p "my.py" then Val custom_mapping
       else if String.eqb p "bad.py" then Raise (ValueError "bad mapping")
       else Raise (FileNotFoundError p);
     parse := parse B;
     QIF := QIF B;
     OFX := OFX B;
     open_read := open_read B;
     stdin := stdin B;
     read_csv := read_csv B;
     gen_data := gen_data B;
     getmtime := getmtime B;
     time_time := time_time B;
     fromtimestamp := fromtimestamp B;
     open_write := open_write B;
     write := write B |}.

(** The states of [csv2ofx in.csv out.ofx] once the source is open and
    once the body has been set up. *)
Definition opened : state :=
  {| source_open := true; dest_open := false; written := EmptyString;
     log := [EvOpenSource "in.csv"] |}.

Definition piped : state :=
  {| source_open := true; dest_open := false; written := EmptyString;
     log := [EvOpenSource "in.csv"; EvCall ReadCsv true; EvCall GenGroups true;
             EvCall GenTrxns true; EvCall CleanTrxns true; EvCall GenData true;
             EvCall GenBody true] |}.

End Fixtures.

(** * Properties *)

(** ** Streams and sections *)

Lemma string_app_assoc (a b c : string) : (a +:+ b) +:+ c = a +:+ (b +:+ c).
Proof.
  induction a as [|x a IH]; [reflexivity|].
  change ((String x a +:+ b) +:+ c) with (String x ((a +:+ b) +:+ c)).
  now rewrite IH.
Qed.

Lemma string_app_nil_r (a : string) : a +:+ EmptyString = a.
Proof.
  induction a as [|x a IH]; [reflexivity|].
  change (String x a +:+ EmptyString) with (String x (a +:+ EmptyString)).
  now rewrite IH.
Qed.

Lemma text_of_app (l1 l2 : list string) :
  text_of (l1 ++ l2) = text_of l1 +:+ text_of l2.
Proof.
  induction l1 as [|x l1 IH]; simpl.
  - reflexivity.
  - rewrite IH. symmetry. apply string_app_assoc.
Qed.

Lemma text_of_chars (s : string) : text_of (chars s) = s.
Proof.
  induction s as [|a s IH]; simpl; [reflexivity|].
  now rewrite IH.
Qed.

Lemma chain_nil_r {A} (x : stream A) : chain x stream_nil = x.
Proof.
  destruct x as [l [e|]]; unfold chain; simpl; [reflexivity|].
  now rewrite app_nil_r.
Qed.

Lemma chain_nil_l {A} (x : stream A) : chain stream_nil x = x.
Proof. destruct x as [l o]. reflexivity. Qed.

Lemma contribution_no_raise_text (s : section) :
  snd (contribution s) = None ->
  text_of (fst (contribution s)) = section_text s.
Proof.
  unfold contribution.
  destruct s as [|t|l|g]; simpl.
  - reflexivity.
  - destruct t; simpl; [reflexivity|]. intros _. now rewrite text_of_chars.
  - destruct l; reflexivity.
  - reflexivity.
Qed.

Lemma content_of_chain (h b f : section) :
  content_of h b f = chain (contribution h) (chain (contribution b) (contribution f)).
Proof.
  unfold content_of, contribution, chain_from_iterable. simpl.
  destruct (section_truthy h), (section_truthy b), (section_truthy f); simpl;
    rewrite ?chain_nil_r, ?chain_nil_l; reflexivity.
Qed.

(** The content when no section raises while it is drained: the fragments
    of the header, then those of the body, then those of the footer, and
    the text the concatenation of the three texts. *)
Lemma content_of_sections (h b f : section) :
  snd (contribution h) = None ->
  snd (contribution b) = None ->
  snd (contribution f) = None ->
  content_of h b f
  = (fst (contribution h) ++ fst (contribution b) ++ fst (contribution f), None)
  /\ text_of (fst (content_of h b f))
     = section_text h +:+ section_text b +:+ section_text f.
Proof.
  intros Hh Hb Hf.
  assert (Hc : content_of h b f
     = (fst (contribution h) ++ fst (contribution b) ++ fst (contribution f), None)).
  { rewrite content_of_chain. unfold chain at 2. rewrite Hb. simpl.
    unfold chain. rewrite Hh. simpl. now rewrite Hf. }
  split; [exact Hc|].
  rewrite Hc. simpl. rewrite !text_of_app.
  now rewrite !contribution_no_raise_text by assumption.
Qed.

Lemma contribution_omitted (s : section) :
  section_truthy s = false -> contribution s = stream_nil.
Proof. intros Hs. unfold contribution. now rewrite Hs. Qed.

Section Properties.

Context {records groups trxns cleaned data : Type}.
Variable E : env records groups trxns cleaned data.

(** ** The argument parser *)

Lemma last_of_In {A : Type} (f : Cli.opt -> option A) (l : list Cli.opt) (v : A) :
  Cli.last_of f l = Some v -> exists o, In o l /\ f o = Some v.
Proof.
  induction l as [|o l IH]; simpl; [discriminate|].
  destruct (Cli.last_of f l) as [w|].
  - intros H. destruct (IH H) as (o' & Hin & Hf). exists o'. split; [now right | exact Hf].
  - intros H. exists o. split; [now left | exact H].
Qed.

(** What the parser does with one option. *)
Lemma take_action_inv (o : Cli.opt) custom s r s1 :
  take_action E o custom s = (r, s1) ->
  match r with
  | Done custom' =>
      s1 = s /\ accepted E o = true
      /\ custom' = match o with
                   | Cli.Custom path =>
                       match load_custom_module E path with
                       | Val m => Some m
                       | Raise _ => custom
                       end
                   | _ => custom
                   end
  | Thrown e =>
      s1 = s /\ accepted E o = false
      /\ exists path, o = Cli.Custom path /\ load_custom_module E path = Raise e
  | Exited x =>
      accepted E o = false
      /\ ((x = ExitInt 0 /\ o = Cli.Help /\ s1 = add_event EvPrintHelp s)
          \/ (x = ExitInt 2 /\ exists flag value, s1 = add_event (EvUsage flag value) s))
  end.
Proof.
  unfold take_action, check_choice, convert_custom, parser_error, bind, emit,
    sys_exit, ret, throw, accepted.
  destruct o; try (intros H; inversion H; subst; repeat split; reflexivity).
  - destruct (in_choices TYPES v); intros H; inversion H; subst.
    + repeat split.
    + split; [reflexivity|]. right. split; [reflexivity|]. now do 2 eexists.
  - destruct (in_choices (MODULES E) v); intros H; inversion H; subst.
    + repeat split.
    + split; [reflexivity|]. right. split; [reflexivity|]. now do 2 eexists.
  - destruct (load_custom_module E path) as [m|[]] eqn:Hl; intros H; inversion H; subst;
      simpl;
      first [ now repeat split
            | split; [reflexivity|]; split; [reflexivity|]; exists path; now split
            | split; [reflexivity|]; right; split; [reflexivity|]; now do 2 eexists ].
  - intros H; inversion H; subst. split; [reflexivity|]. left. repeat split.
  - intros H; inversion H; subst. split; [reflexivity|]. right.
    split; [reflexivity|]. now do 2 eexists.
Qed.

Lemma consume_optionals_done l custom s custom' s' :
  consume_optionals E l custom s = (Done custom', s') ->
  s' = s /\ forallb (accepted E) l = true.
Proof.
  revert custom s. induction l as [|o l IH]; intros custom s; simpl.
  - intros H. inversion H. now split.
  - unfold bind.
    destruct (take_action E o custom s) as [[cu|e|x] s1] eqn:Ht; try discriminate.
    apply take_action_inv in Ht as (-> & Ha & _).
    intros H. apply IH in H as (-> & Hl). rewrite Ha, Hl. now split.
Qed.

Lemma parse_args_accepted c s a s' :
  parse_args E c s = (Done a, s') ->
  forallb (accepted E) (Cli.opts c) = true /\ Cli.extra c = [].
Proof.
  unfold parse_args, bind.
  destruct (consume_optionals E (Cli.opts c) None s) as [[cu|e|x] s1] eqn:Hc;
    try discriminate.
  apply consume_optionals_done in Hc as (-> & Hl).
  destruct (Cli.extra c); [now split|].
  unfold parser_error, bind, emit, sys_exit. discriminate.
Qed.

Lemma parse_args_done c s a s' :
  parse_args E c s = (Done a, s') ->
  s' = s
  /\ (exists custom, a = namespace E c custom)
  /\ (forall v, Cli.account_type c = Some v -> in_choices TYPES v = true).
Proof.
  intros H. pose proof (parse_args_accepted _ _ _ _ H) as (Hacc & Hex).
  unfold parse_args, bind in H.
  destruct (consume_optionals E (Cli.opts c) None s) as [[cu|e|x] s1] eqn:Hc;
    try discriminate.
  apply consume_optionals_done in Hc as (-> & _).
  rewrite Hex in H. inversion H; subst.
  split; [reflexivity|]. split; [now exists cu|].
  intros v Hv. apply last_of_In in Hv as (o & Hin & Ho).
  destruct o; try discriminate. inversion Ho; subst.
  rewrite forallb_forall in Hacc. exact (Hacc _ Hin).
Qed.

Lemma in_choices_format_TYPES qif v :
  in_choices (format_types qif) v = true -> in_choices TYPES v = true.
Proof.
  unfold in_choices, format_types, QIF_TYPES, OFX_TYPES, TYPES. simpl.
  destruct qif; simpl; intros H;
    repeat (apply orb_true_iff in H as [H|H]; [rewrite H; now rewrite ?orb_true_r|]);
    discriminate.
Qed.

(** C8. When the user gives no account type, the type passed to the
    renderer is "Bank" when QIF output is selected and "CHECKING" when OFX
    output is selected, whatever the mapping and the other options: it is
    the [def_type] of the keyword arguments with which the selected
    renderer class is called. *)
Theorem default_account_type (c : Cli.t) (s s' : state) (a : Args.t)
    (okw : Okw.t) (m : gmap string pyval) :
  Cli.account_type c = None ->
  parse_args E c s = (Done a, s') ->
  okwargs E a = Val okw ->
  Okw.def_type okw = (if Cli.qif c then "Bank" else "CHECKING")
  /\ make_container E a m = (if Cli.qif c then QIF E m okw else OFX E m okw).
Proof.
  intros Hnone Hargs Hokw.
  apply parse_args_done in Hargs as (_ & (custom & ->) & _).
  unfold make_container. rewrite Hokw. simpl. split; [|reflexivity].
  unfold okwargs, rbind in Hokw.
  destruct (parse_opt E _ _) as [st|]; [|discriminate].
  destruct (parse_opt E _ _) as [en|]; [|discriminate].
  inversion Hokw; subst; simpl.
  unfold def_type_of; simpl. now rewrite Hnone.
Qed.

(** ** The keyword arguments of the reader *)

(** C9. The CSV-shape hints come from the mapping first: [first_row],
    [last_row] and [first_col] are the mapping's value when the mapping has
    the key and the command-line value (or its declared default: 0, no
    limit, 0) only when it has not; [delimiter] is the mapping's value, a
    comma when the mapping has none, and no option changes it. *)
Theorem csv_hints_from_mapping (c : Cli.t) (s s' : state) (a : Args.t)
    (cont : container records groups trxns cleaned data) (m : gmap string pyval) :
  parse_args E c s = (Done a, s') ->
  Ckw.first_row (ckwargs a cont m)
  = match m !! "first_row" with
    | Some v => v
    | None => PyInt (match Cli.first_row c with Some n => n | None => 0 end)
    end
  /\ Ckw.last_row (ckwargs a cont m)
     = match m !! "last_row" with
       | Some v => v
       | None => match Cli.last_row c with Some n => PyInt n | None => PyInf end
       end
  /\ Ckw.first_col (ckwargs a cont m)
     = match m !! "first_col" with
       | Some v => v
       | None => PyInt (match Cli.first_col c with Some n => n | None => 0 end)
       end
  /\ Ckw.delimiter (ckwargs a cont m)
     = match m !! "delimiter" with
       | Some v => v
       | None => PyStr ","
       end.
Proof.
  intros Hargs.
  apply parse_args_done in Hargs as (_ & (custom & ->) & _).
  unfold ckwargs, dict_get; simpl. repeat split.
Qed.

(** The mapping wins over the command line, whatever the option says. *)
Lemma mapping_overrides_option (a : Args.t)
    (cont : container records groups trxns cleaned data) (m : gmap string pyval)
    (v : pyval) :
  Ckw.first_row (ckwargs a cont (<["first_row" := v]> m)) = v
  /\ Ckw.last_row (ckwargs a cont (<["last_row" := v]> m)) = v
  /\ Ckw.first_col (ckwargs a cont (<["first_col" := v]> m)) = v
  /\ Ckw.delimiter (ckwargs a cont (<["delimiter" := v]> m)) = v.
Proof.
  unfold ckwargs, dict_get; simpl.
  now rewrite !lookup_insert_eq.
Qed.

(** ** The server date *)

(** C10. The date of the header and of the footer: the parsed
    [--server-date] when one is given; otherwise the modification time of
    the source when the source has a name that [getmtime] resolves;
    otherwise, when the source has no name or no file has that name, the
    clock at that moment.  The same date goes to the header and to the
    footer. *)
Theorem server_date_fallback (a : Args.t) (source : source_obj) (s : state) :
  (forall text, Args.server_date a = Some text -> nonempty text = true ->
     server_date_of E a source s = lift (parse E text (Args.dayfirst a)) s)
  /\ (forall path mtime, truthy (Args.server_date a) = false ->
        name source = Some path -> getmtime E path = Val mtime ->
        server_date_of E a source s = (Done (fromtimestamp E mtime), s))
  /\ (forall path msg, truthy (Args.server_date a) = false ->
        name source = Some path -> getmtime E path = Raise (FileNotFoundError msg) ->
        server_date_of E a source s = (Done (fromtimestamp E (time_time E)), s))
  /\ (truthy (Args.server_date a) = false -> name source = None ->
        server_date_of E a source s = (Done (fromtimestamp E (time_time E)), s))
  /\ (forall cont ckw body d s1,
        gen_pipeline E a cont source ckw s = (Done body, s1) ->
        server_date_of E a source s1 = (Done d, s1) ->
        build_content E a cont source ckw s
        = (h <~ call Header (header cont d (Args.language a)) ;;
           f <~ call Footer (footer cont d (Args.ending_balance a)) ;;
           ret (content_of h body f,
                {| Wkw.overwrite := Args.overwrite a;
                   Wkw.chunksize := Args.chunksize a;
                   Wkw.encoding := Args.encoding a |})) s1).
Proof.
  unfold server_date_of.
  repeat split.
  - intros text Hsd Hne. rewrite Hsd. simpl. now rewrite Hne.
  - intros path mtime Hsd Hname Hm. rewrite Hsd.
    unfold bind, try_except, _time_from_file. rewrite Hname, Hm. reflexivity.
  - intros path msg Hsd Hname Hm. rewrite Hsd.
    unfold bind, try_except, _time_from_file. rewrite Hname, Hm. reflexivity.
  - intros Hsd Hname. rewrite Hsd.
    unfold bind, try_except, _time_from_file. rewrite Hname. reflexivity.
  - intros cont ckw body d s1 Hp Hd.
    unfold build_content, server_date_of.
    unfold bind at 1. rewrite Hp.
    unfold bind at 1. unfold server_date_of in Hd. rewrite Hd. reflexivity.
Qed.

End Properties.

Lemma default_account_type_witness :
  Okw.def_type
    {| Okw.def_type := "CHECKING"; Okw.start := None;
       Okw.end_ := Some (Example.midnight Example.today + 34200);
       Okw.strict := false; Okw.institution := None |}
  = "CHECKING"
  /\ Okw.def_type
       {| Okw.def_type := "Bank"; Okw.start := None;
          Okw.end_ := Some (Example.midnight Example.today + 34200);
          Okw.strict := false; Okw.institution := None |}
     = "Bank".
Proof.
  split.
  - exact (proj1 (default_account_type (Example.world [] false None)
                    Example.cli init init _ _ Example.mapping
                    eq_refl eq_refl eq_refl)).
  - exact (proj1 (default_account_type (Example.world [] false None)
                    (Example.with_opts [Cli.Qif] Example.cli) init init _ _
                    Example.mapping eq_refl eq_refl eq_refl)).
Defined.

(** ** The calls of the stages *)

Lemma stage_eqb_eq (a b : stage) : stage_eqb a b = true -> a = b.
Proof. destruct a, b; simpl; congruence. Qed.

Lemma stage_eqb_refl (a : stage) : stage_eqb a a = true.
Proof. now destruct a. Qed.

Lemma calls_with_app (l l' : list event) :
  calls_with (l ++ l') = calls_with l ++ calls_with l'.
Proof.
  induction l as [|e l IH]; simpl; [reflexivity|].
  destruct e; simpl; now rewrite ?IH.
Qed.

Lemma follows_all_returned (sts : list stage) :
  follows sts (all_returned sts) = true.
Proof.
  induction sts as [|st sts IH]; simpl; [reflexivity|].
  now rewrite stage_eqb_refl, IH.
Qed.

Lemma follows_app_l (A B : list stage) (tr : list (stage * bool)) :
  follows A tr = true -> follows (A ++ B) tr = true.
Proof.
  revert tr. induction A as [|st A IH]; intros [|[st' b] tr] H; simpl in *;
    try reflexivity; try discriminate.
  apply andb_true_iff in H as [-> H]. simpl.
  destruct b; [now apply IH | exact H].
Qed.

Lemma follows_app_r (A B : list stage) (tr : list (stage * bool)) :
  follows B tr = true -> follows (A ++ B) (all_returned A ++ tr) = true.
Proof.
  intros H. induction A as [|st A IH]; simpl; [exact H|].
  now rewrite stage_eqb_refl, IH.
Qed.

Lemma follows_prefix (sts : list stage) (tr : list (stage * bool)) :
  follows sts tr = true ->
  no_call_after_failure tr = true /\ exists n, map fst tr = firstn n sts.
Proof.
  revert sts. induction tr as [|[st' b] tr IH]; intros sts H; simpl.
  - split; [reflexivity|]. now exists 0%nat.
  - destruct sts as [|st sts]; simpl in H; [discriminate|].
    apply andb_true_iff in H as [Heq H]. apply stage_eqb_eq in Heq as <-.
    destruct b.
    + destruct (IH _ H) as [Hn [n Hp]]. split; [exact Hn|].
      exists (S n). simpl. now rewrite Hp.
    + destruct tr; [|discriminate]. split; [reflexivity|]. now exists 1%nat.
Qed.

Lemma in_firstn {A} (x : A) (n : nat) (l : list A) :
  In x (firstn n l) -> In x l.
Proof.
  revert l. induction n as [|n IH]; intros [|y l]; simpl; try tauto.
  intros [H|H]; [now left | right; now apply IH].
Qed.

Lemma all_returned_no_failure (sts : list stage) (st : stage) :
  ~ In (st, false) (all_returned sts).
Proof.
  unfold all_returned. intros H. apply in_map_iff in H as (x & Hx & _).
  discriminate.
Qed.

Section Run.

Context {records groups trxns cleaned data : Type}.
Variable E : env records groups trxns cleaned data.

Lemma bind_inv {A B} (m : M A) (k : A -> M B) (s : state) r s' :
  bind m k s = (r, s') ->
  (exists a s1, m s = (Done a, s1) /\ k a s1 = (r, s'))
  \/ (exists e, m s = (Thrown e, s') /\ r = Thrown e)
  \/ (exists x, m s = (Exited x, s') /\ r = Exited x).
Proof.
  unfold bind. destruct (m s) as [[a|e|x] s1]; intros H.
  - left. now exists a, s1.
  - right; left. inversion H. now exists e.
  - right; right. inversion H. now exists x.
Qed.

Lemma call_inv {A} (st : stage) (res : result A) (s : state) r s1 :
  call st res s = (r, s1) ->
  s1 = add_event (EvCall st (is_val res)) s
  /\ r = match res with Val a => Done a | Raise e => Thrown e end.
Proof.
  unfold call, bind, emit, lift, ret, throw. destruct res; simpl; intros H;
    inversion H; split; reflexivity.
Qed.

Lemma lift_inv {A} (res : result A) (s : state) r s1 :
  lift res s = (r, s1) ->
  s1 = s /\ r = match res with Val a => Done a | Raise e => Thrown e end.
Proof.
  unfold lift, ret, throw. destruct res; intros H; inversion H; split; reflexivity.
Qed.

Lemma same_files_refl (s : state) : same_files s s.
Proof. repeat split. Qed.

Lemma same_files_event (e : event) (s s1 : state) :
  same_files s s1 -> same_files s (add_event e s1).
Proof. intros H. exact H. Qed.

Lemma same_files_trans (s s1 s2 : state) :
  same_files s s1 -> same_files s1 s2 -> same_files s s2.
Proof.
  intros (A1 & A2 & A3) (B1 & B2 & B3). repeat split; congruence.
Qed.

Lemma log_add_event (e : event) (s : state) :
  calls_with (log (add_event e s)) = calls_with (log s) ++ calls_with [e].
Proof. simpl. apply calls_with_app. Qed.

(** One more stage: what a call adds to a computation that follows [sts]. *)
Lemma call_step {A} (st : stage) (res : result A) (sts : list stage)
    (s0 s s1 : state) (tr : list (stage * bool)) r :
  same_files s0 s ->
  calls_with (log s) = calls_with (log s0) ++ tr ->
  tr = all_returned sts ->
  call st res s = (r, s1) ->
  same_files s0 s1
  /\ r = match res with Val a => Done a | Raise e => Thrown e end
  /\ calls_with (log s1)
     = calls_with (log s0) ++ all_returned sts ++ [(st, is_val res)]
  /\ follows (sts ++ [st]) (all_returned sts ++ [(st, is_val res)]) = true.
Proof.
  intros Hf Hl -> Hc. apply call_inv in Hc as [-> ->].
  split; [exact Hf|]. split; [reflexivity|]. split.
  - rewrite log_add_event, Hl. simpl. now rewrite <- app_assoc.
  - apply follows_app_r. simpl. rewrite stage_eqb_refl. now destruct (is_val res).
Qed.

Lemma gen_pipeline_calls a cont src ckw s r s1 :
  gen_pipeline E a cont src ckw s = (r, s1) ->
  same_files s s1
  /\ (forall x, r <> Exited x)
  /\ exists tr, calls_with (log s1) = calls_with (log s) ++ tr
     /\ follows PIPELINE tr = true
     /\ (forall b, r = Done b -> tr = all_returned PIPELINE).
Proof.
  unfold gen_pipeline. intros H.
  assert (H0 : calls_with (log s) = calls_with (log s) ++ []) by now rewrite app_nil_r.
  pose proof (same_files_refl s) as F0.
  apply bind_inv in H as [(x1 & s2 & H1 & H) | [(e & H1 & ->) | (x & H1 & ->)]].
  2,3: destruct (call_step ReadCsv _ [] s s _ [] _ F0 H0 eq_refl H1) as (F & Hr & Hl & Hf);
       destruct (read_csv E src ckw); try discriminate;
       (split; [exact F|]; split; [discriminate|]; eexists; split; [exact Hl|];
        split; [exact (follows_app_l _ [GenGroups; GenTrxns; CleanTrxns; GenData; GenBody] _ Hf) | discriminate]).
  destruct (call_step ReadCsv _ [] s s _ [] _ F0 H0 eq_refl H1) as (F1 & Hr1 & Hl1 & _).
  destruct (read_csv E src ckw) as [v1|]; [|discriminate]. simpl in Hl1. clear H1 Hr1.
  apply bind_inv in H as [(x2 & s3 & H2 & H) | [(e & H2 & ->) | (x & H2 & ->)]].
  2,3: destruct (call_step GenGroups _ [ReadCsv] s s2 _ _ _ F1 Hl1 eq_refl H2) as (F & Hr & Hl & Hf);
       destruct (gen_groups cont x1 (Args.chunksize a)); try discriminate;
       (split; [exact F|]; split; [discriminate|]; eexists; split; [exact Hl|];
        split; [exact (follows_app_l _ [GenTrxns; CleanTrxns; GenData; GenBody] _ Hf) | discriminate]).
  destruct (call_step GenGroups _ [ReadCsv] s s2 _ _ _ F1 Hl1 eq_refl H2) as (F2 & Hr2 & Hl2 & _).
  destruct (gen_groups cont x1 (Args.chunksize a)) as [v2|]; [|discriminate]. simpl in Hl2. clear H2 Hr2.
  apply bind_inv in H as [(x3 & s4 & H3 & H) | [(e & H3 & ->) | (x & H3 & ->)]].
  2,3: destruct (call_step GenTrxns _ [ReadCsv; GenGroups] s s3 _ _ _ F2 Hl2 eq_refl H3) as (F & Hr & Hl & Hf);
       destruct (gen_trxns cont x2 (Args.collapse a)); try discriminate;
       (split; [exact F|]; split; [discriminate|]; eexists; split; [exact Hl|];
        split; [exact (follows_app_l _ [CleanTrxns; GenData; GenBody] _ Hf) | discriminate]).
  destruct (call_step GenTrxns _ [ReadCsv; GenGroups] s s3 _ _ _ F2 Hl2 eq_refl H3) as (F3 & Hr3 & Hl3 & _).
  destruct (gen_trxns cont x2 (Args.collapse a)) as [v3|]; [|discriminate]. simpl in Hl3. clear H3 Hr3.
  apply bind_inv in H as [(x4 & s5 & H4 & H) | [(e & H4 & ->) | (x & H4 & ->)]].
  2,3: destruct (call_step CleanTrxns _ [ReadCsv; GenGroups; GenTrxns] s s4 _ _ _ F3 Hl3 eq_refl H4) as (F & Hr & Hl & Hf);
       destruct (clean_trxns cont x3); try discriminate;
       (split; [exact F|]; split; [discriminate|]; eexists; split; [exact Hl|];
        split; [exact (follows_app_l _ [GenData; GenBody] _ Hf) | discriminate]).
  destruct (call_step CleanTrxns _ [ReadCsv; GenGroups; GenTrxns] s s4 _ _ _ F3 Hl3 eq_refl H4) as (F4 & Hr4 & Hl4 & _).
  destruct (clean_trxns cont x3) as [v4|]; [|discriminate]. simpl in Hl4. clear H4 Hr4.
  apply bind_inv in H as [(x5 & s6 & H5 & H) | [(e & H5 & ->) | (x & H5 & ->)]].
  2,3: destruct (call_step GenData _ [ReadCsv; GenGroups; GenTrxns; CleanTrxns] s s5 _ _ _ F4 Hl4 eq_refl H5) as (F & Hr & Hl & Hf);
       destruct (gen_data E x4); try discriminate;
       (split; [exact F|]; split; [discriminate|]; eexists; split; [exact Hl|];
        split; [exact (follows_app_l _ [GenBody] _ Hf) | discriminate]).
  destruct (call_step GenData _ [ReadCsv; GenGroups; GenTrxns; CleanTrxns] s s5 _ _ _ F4 Hl4 eq_refl H5) as (F5 & Hr5 & Hl5 & _).
  destruct (gen_data E x4) as [v5|]; [|discriminate]. simpl in Hl5. clear H5 Hr5.
  destruct (call_step GenBody _ [ReadCsv; GenGroups; GenTrxns; CleanTrxns; GenData] s s6 _ _ _ F5 Hl5 eq_refl H)
    as (F & Hr & Hl & Hf).
  split; [exact F|]. split; [destruct (gen_body cont x5); subst r; discriminate|].
  eexists. split; [exact Hl|]. split; [exact Hf|].
  intros b Hb. destruct (gen_body cont x5); [reflexivity | subst r; discriminate].
Qed.

Lemma gen_pipeline_value a cont src ckw s :
  fst (gen_pipeline E a cont src ckw s) = fst (lift (stages_composed E a cont src ckw) s).
Proof.
  unfold gen_pipeline, stages_composed, bind, call, emit, lift, ret, throw, rbind.
  destruct (read_csv E src ckw) as [v1|]; simpl; [|reflexivity].
  destruct (gen_groups cont v1 (Args.chunksize a)) as [v2|]; simpl; [|reflexivity].
  destruct (gen_trxns cont v2 (Args.collapse a)) as [v3|]; simpl; [|reflexivity].
  destruct (clean_trxns cont v3) as [v4|]; simpl; [|reflexivity].
  destruct (gen_data E v4) as [v5|]; simpl; [|reflexivity].
  destruct (gen_body cont v5); reflexivity.
Qed.

Lemma server_date_inv a src s r s1 :
  server_date_of E a src s = (r, s1) -> s1 = s /\ forall x, r <> Exited x.
Proof.
  unfold server_date_of. destruct (truthy (Args.server_date a)).
  - intros H. apply lift_inv in H as [-> ->]. split; [reflexivity|].
    now destruct (parse E _ _).
  - unfold bind, try_except, lift, ret, throw.
    destruct (_time_from_file E src) as [m|e]; simpl.
    + intros H; inversion H. split; [reflexivity | discriminate].
    + destruct e; simpl; intros H; inversion H; split; (reflexivity || discriminate).
Qed.

Lemma build_content_calls a cont src ckw s r s1 :
  build_content E a cont src ckw s = (r, s1) ->
  same_files s s1
  /\ (forall x, r <> Exited x)
  /\ exists tr, calls_with (log s1) = calls_with (log s) ++ tr
     /\ follows RENDERED tr = true
     /\ (forall v, r = Done v ->
           tr = all_returned RENDERED
           /\ exists body h f,
                stages_composed E a cont src ckw = Val body
                /\ fst v = content_of h body f).
Proof.
  unfold build_content. intros H.
  apply bind_inv in H as [(body & s2 & H1 & H) | [(e & H1 & ->) | (x & H1 & ->)]].
  2,3: apply gen_pipeline_calls in H1 as (F & Hx & tr & Hl & Hf & _);
       (split; [exact F|]; split; [try discriminate; try (exfalso; now apply (Hx x))|];
        exists tr; split; [exact Hl|]; split;
        [exact (follows_app_l PIPELINE [Header; Footer] tr Hf) | discriminate]).
  pose proof (gen_pipeline_value a cont src ckw s) as Hv. rewrite H1 in Hv. simpl in Hv.
  apply gen_pipeline_calls in H1 as (F1 & _ & tr & Hl1 & _ & Hd).
  specialize (Hd body eq_refl). subst tr.
  assert (Hbody : stages_composed E a cont src ckw = Val body).
  { destruct (stages_composed E a cont src ckw); simpl in Hv; congruence. }
  clear Hv.
  apply bind_inv in H as [(d & s3 & H2 & H) | [(e & H2 & ->) | (x & H2 & ->)]].
  2,3: apply server_date_inv in H2 as [-> Hx];
       (split; [exact F1|]; split; [try discriminate; try (exfalso; now apply (Hx x))|];
        eexists; split; [exact Hl1|]; split;
        [exact (follows_app_l PIPELINE [Header; Footer] _ (follows_all_returned PIPELINE))
        | discriminate]).
  apply server_date_inv in H2 as [-> _].
  apply bind_inv in H as [(h & s4 & H3 & H) | [(e & H3 & ->) | (x & H3 & ->)]].
  2,3: destruct (call_step Header _ PIPELINE s s2 _ _ _ F1 Hl1 eq_refl H3) as (F & Hr & Hl & Hf);
       destruct (header cont d (Args.language a)); try discriminate;
       (split; [exact F|]; split; [discriminate|]; eexists; split; [exact Hl|];
        split; [exact (follows_app_l (PIPELINE ++ [Header]) [Footer] _ Hf) | discriminate]).
  destruct (call_step Header _ PIPELINE s s2 _ _ _ F1 Hl1 eq_refl H3) as (F2 & Hr2 & Hl2 & _).
  destruct (header cont d (Args.language a)) as [hv|]; [|discriminate].
  inversion Hr2; subst hv. clear H3 Hr2.
  change (all_returned PIPELINE ++ [(Header, is_val (Val h))])
    with (all_returned (PIPELINE ++ [Header])) in Hl2.
  apply bind_inv in H as [(f & s5 & H4 & H) | [(e & H4 & ->) | (x & H4 & ->)]].
  2,3: destruct (call_step Footer _ (PIPELINE ++ [Header]) s s4 _ _ _ F2 Hl2 eq_refl H4) as (F & Hr & Hl & Hf);
       destruct (footer cont d (Args.ending_balance a)); try discriminate;
       (split; [exact F|]; split; [discriminate|]; eexists; split; [exact Hl|];
        split; [exact Hf | discriminate]).
  destruct (call_step Footer _ (PIPELINE ++ [Header]) s s4 _ _ _ F2 Hl2 eq_refl H4) as (F3 & Hr3 & Hl3 & Hf3).
  destruct (footer cont d (Args.ending_balance a)) as [fv|]; [|discriminate].
  inversion Hr3; subst fv. clear H4 Hr3.
  unfold ret in H. inversion H; subst.
  split; [exact F3|]. split; [discriminate|].
  eexists. split; [exact Hl3|]. split; [exact Hf3|].
  intros v Hv. inversion Hv; subst v. split; [reflexivity|].
  exists body, h, f. split; [exact Hbody | reflexivity].
Qed.

(** ** The handles *)

Lemma open_source_inv a s r s1 :
  source_open s = false ->
  open_source E a s = (r, s1) ->
  dest_open s1 = dest_open s
  /\ written s1 = written s
  /\ calls_with (log s1) = calls_with (log s)
  /\ match r with
     | Done _ => source_open s1 = truthy (Args.source a)
     | Thrown _ => s1 = s
     | Exited _ => False
     end.
Proof.
  intros Hs. unfold open_source, truthy.
  destruct (Args.source a) as [path|].
  - destruct (nonempty path).
    + unfold bind, lift, ret, throw.
      destruct (open_read E path (Args.encoding a)); intros H; inversion H; subst; simpl.
      * repeat split. rewrite calls_with_app. simpl. apply app_nil_r.
      * repeat split.
    + intros H; inversion H; subst. repeat split. exact Hs.
  - intros H; inversion H; subst. repeat split. exact Hs.
Qed.

Lemma open_dest_inv a s r s1 :
  dest_open s = false ->
  open_dest E a s = (r, s1) ->
  match r with
  | Done _ =>
      dest_open s1 = truthy (Args.dest a)
      /\ source_open s1 = source_open s
      /\ written s1 = written s
      /\ calls_with (log s1) = calls_with (log s)
      /\ (forall e, In e (log s1) -> In e (log s) \/ exists p, e = EvOpenDest p)
  | Thrown e =>
      s1 = s
      /\ exists path, Args.dest a = Some path
           /\ open_write E path (Args.encoding a) = Raise e
  | Exited _ => False
  end.
Proof.
  intros Hs. unfold open_dest, truthy.
  destruct (Args.dest a) as [path|].
  - destruct (nonempty path).
    + unfold bind, lift, ret, throw.
      destruct (open_write E path (Args.encoding a)) eqn:Hw;
        intros H; inversion H; subst; simpl.
      * repeat split.
        -- rewrite calls_with_app. simpl. apply app_nil_r.
        -- intros e He. apply in_app_or in He as [He|[<-|[]]]; [now left|].
           right. now exists path.
      * split; [reflexivity|]. now exists path.
    + intros H; inversion H; subst. repeat split; [exact Hs|]. intros e He. now left.
  - intros H; inversion H; subst. repeat split; [exact Hs|]. intros e He. now left.
Qed.

(** The [finally] clause closes what was opened. *)
Lemma cleanup_closes a s :
  source_open s = truthy (Args.source a) ->
  dest_open s = truthy (Args.dest a) ->
  exists s1,
    (when (truthy (Args.source a)) close_source ;;;
     when (truthy (Args.dest a)) close_dest) s = (Done tt, s1)
    /\ handles_closed s1
    /\ written s1 = written s
    /\ calls_with (log s1) = calls_with (log s)
    /\ (forall e, In e (log s1) ->
          In e (log s) \/ e = EvCloseSource \/ e = EvCloseDest).
Proof.
  intros Hs Hd. unfold when, bind, close_source, close_dest, ret, handles_closed.
  destruct (truthy (Args.source a)), (truthy (Args.dest a)); simpl;
    eexists; (split; [reflexivity|]); simpl; rewrite ?calls_with_app; simpl;
    rewrite ?app_nil_r; repeat split; auto;
    intros e He; repeat (apply in_app_or in He as [He|[<-|[]]]; auto).
Qed.

(** The source is closed when the first [try] fails. *)
Lemma close_and_exit a err s :
  source_open s = truthy (Args.source a) ->
  exists s1,
    (when (truthy (Args.source a)) close_source ;;; sys_exit (ExitExn err)) s
    = (@Exited (stream string * Wkw.t) (ExitExn err), s1)
    /\ source_open s1 = false
    /\ dest_open s1 = dest_open s
    /\ written s1 = written s
    /\ calls_with (log s1) = calls_with (log s).
Proof.
  intros Hs. unfold when, bind, close_source, sys_exit, ret.
  destruct (truthy (Args.source a)); simpl; eexists; (split; [reflexivity|]);
    simpl; rewrite ?calls_with_app; simpl; rewrite ?app_nil_r; repeat split; auto.
Qed.

(** ** The two halves of [run] *)

Lemma prepare_calls a s r s1 :
  handles_closed s ->
  prepare E a s = (r, s1) ->
  dest_open s1 = false
  /\ written s1 = written s
  /\ exists tr, calls_with (log s1) = calls_with (log s) ++ tr
     /\ follows RENDERED tr = true
     /\ match r with
        | Done _ => source_open s1 = truthy (Args.source a)
                    /\ tr = all_returned RENDERED
        | Thrown _ => source_open s1 = false /\ tr = []
        | Exited x => source_open s1 = false /\ exists err, x = ExitExn err
        end.
Proof.
  intros [Hs Hd]. unfold prepare. intros H.
  apply bind_inv in H as [(m & s2 & H1 & H) | [(e & H1 & ->) | (x & H1 & ->)]].
  2,3: apply lift_inv in H1 as [-> Hr]; destruct (load_mapping E a); try discriminate;
       (split; [exact Hd|]; split; [reflexivity|]; exists [];
        rewrite app_nil_r; repeat split; exact Hs).
  apply lift_inv in H1 as [-> _].
  apply bind_inv in H as [(cont & s3 & H2 & H) | [(e & H2 & ->) | (x & H2 & ->)]].
  2,3: apply lift_inv in H2 as [-> Hr]; destruct (make_container E a m); try discriminate;
       (split; [exact Hd|]; split; [reflexivity|]; exists [];
        rewrite app_nil_r; repeat split; exact Hs).
  apply lift_inv in H2 as [-> _].
  apply bind_inv in H as [(src & s4 & H3 & H) | [(e & H3 & ->) | (x & H3 & ->)]].
  2,3: apply (open_source_inv a s _ _ Hs) in H3 as (D & W & L & Hr); try contradiction;
       subst; (split; [exact Hd|]; split; [reflexivity|]; exists [];
               rewrite app_nil_r; repeat split; exact Hs).
  apply (open_source_inv a s _ _ Hs) in H3 as (D & W & L & Hso).
  unfold try_except in H.
  destruct (build_content E a cont src (ckwargs a cont m) s4) as [[v|e|x] s5] eqn:Hb;
    apply build_content_calls in Hb as ((F1 & F2 & F3) & Hx & tr & Hl & Hf & Hv).
  - inversion H; subst. split; [congruence|]. split; [congruence|].
    exists tr. split; [congruence|]. split; [exact Hf|].
    split; [congruence|]. exact (proj1 (Hv v eq_refl)).
  - destruct (close_and_exit a e s5) as (s6 & Hc & C1 & C2 & C3 & C4); [congruence|].
    rewrite Hc in H. inversion H; subst.
    split; [congruence|]. split; [congruence|].
    exists tr. split; [congruence|]. split; [exact Hf|].
    split; [exact C1|]. now exists e.
  - exfalso. now apply (Hx x).
Qed.

Lemma report_inv a err s :
  exists x s1,
    report a err s = (Done x, s1)
    /\ same_files s s1
    /\ calls_with (log s1) = calls_with (log s)
    /\ exit_status x = 1.
Proof.
  unfold report, bind, emit, ret.
  destruct err; simpl; do 2 eexists; (split; [reflexivity|]); simpl;
    rewrite ?calls_with_app; simpl; rewrite ?app_nil_r; repeat split.
Qed.

Lemma write_out_inv a content kw s r s1 :
  source_open s = truthy (Args.source a) ->
  dest_open s = false ->
  write_out E a content kw s = (r, s1) ->
  (exists e path, r = Thrown e /\ s1 = s
     /\ Args.dest a = Some path
     /\ open_write E path (Args.encoding a) = Raise e)
  \/ (exists x, r = Exited x
        /\ handles_closed s1
        /\ written s1 = written s +:+ fst (write E (Args.dest a) content kw)
        /\ calls_with (log s1)
           = calls_with (log s)
             ++ [(Write, is_val (snd (write E (Args.dest a) content kw)))]
        /\ (is_val (snd (write E (Args.dest a) content kw)) = false ->
            exit_status x = 1)
        /\ match snd (write E (Args.dest a) content kw) with
           | Val res => x = report_written res
           | Raise err => exists st st', report a err st = (Done x, st')
           end).
Proof.
  intros Hs Hd. unfold write_out. intros H.
  apply bind_inv in H as [(u & s2 & H1 & H) | [(e & H1 & ->) | (x & H1 & ->)]].
  2: { apply (open_dest_inv a s _ _ Hd) in H1 as (-> & path & Hp & Hw).
       left. now exists e, path. }
  2: { now apply (open_dest_inv a s _ _ Hd) in H1. }
  apply (open_dest_inv a s _ _ Hd) in H1 as (D & S & W & L & _).
  right. unfold finally_exit, try_except in H. unfold bind at 1 in H.
  unfold call_write in H.
  destruct (write E (Args.dest a) content kw) as [text [res|err]]; simpl in *.
  - destruct (cleanup_closes a
                (add_event (EvCall Write true) (add_written text s2)))
      as (s4 & Hc & C1 & C2 & C3 & _).
    { simpl. congruence. }
    { simpl. congruence. }
    unfold bind at 1 in H. rewrite Hc in H. unfold sys_exit in H.
    inversion H; subst.
    eexists. split; [reflexivity|]. split; [exact C1|].
    split; [rewrite C2; simpl; now rewrite W|].
    split; [|split; [discriminate | reflexivity]].
    rewrite C3. simpl. rewrite calls_with_app. simpl. now rewrite L.
  - destruct (report_inv a err
                (add_event (EvCall Write false) (add_written text s2)))
      as (x & s3 & Hr & (R1 & R2 & R3) & Rl & Rx).
    rewrite Hr in H.
    destruct (cleanup_closes a s3) as (s4 & Hc & C1 & C2 & C3 & _).
    { rewrite R1. simpl. congruence. }
    { rewrite R2. simpl. congruence. }
    unfold bind at 1 in H. rewrite Hc in H. unfold sys_exit in H.
    inversion H; subst.
    exists x. split; [reflexivity|]. split; [exact C1|].
    split; [rewrite C2, R3; simpl; now rewrite W|].
    split; [|split; [intros _; exact Rx | do 2 eexists; exact Hr]].
    rewrite C3, Rl. simpl. rewrite calls_with_app. simpl. now rewrite L.
Qed.

(** ** The argument parser *)

Lemma take_action_accepted (o : Cli.opt) custom s :
  accepted E o = true ->
  take_action E o custom s
  = (Done match o with
          | Cli.Custom path =>
              match load_custom_module E path with
              | Val m => Some m
              | Raise _ => custom
              end
          | _ => custom
          end, s).
Proof.
  unfold accepted, take_action, check_choice, convert_custom, bind, ret.
  destruct o; try reflexivity; try discriminate.
  - now intros ->.
  - now intros ->.
  - destruct (load_custom_module E path); [reflexivity | discriminate].
Qed.

(** The options that the parser goes past leave no trace but the module
    of the last [-x]. *)
Lemma consume_optionals_accepted l custom s :
  forallb (accepted E) l = true ->
  consume_optionals E l custom s
  = (Done match Cli.last_of
                  (fun o => match o with Cli.Custom p => Some p | _ => None end) l
          with
          | Some p =>
              match load_custom_module E p with
              | Val m => Some m
              | Raise _ => None
              end
          | None => custom
          end, s).
Proof.
  revert custom. induction l as [|o l IH]; intros custom; simpl; [reflexivity|].
  intros H. apply andb_true_iff in H as [Ho Hl].
  unfold bind. rewrite (take_action_accepted o custom s Ho).
  rewrite (IH _ Hl).
  destruct (Cli.last_of _ l) as [p|]; [reflexivity|].
  destruct o; try reflexivity.
  simpl in Ho. now destruct (load_custom_module E path).
Qed.

(** The parser stops at the first option that it does not go past. *)
Lemma consume_optionals_app pre rest custom s :
  forallb (accepted E) pre = true ->
  exists custom', consume_optionals E (pre ++ rest) custom s
                  = consume_optionals E rest custom' s.
Proof.
  revert custom. induction pre as [|o pre IH]; intros custom; simpl.
  - intros _. now exists custom.
  - intros H. apply andb_true_iff in H as [Ho Hl].
    unfold bind. rewrite (take_action_accepted o custom s Ho).
    apply IH. exact Hl.
Qed.

Lemma consume_optionals_inv l custom s r s1 :
  consume_optionals E l custom s = (r, s1) ->
  match r with
  | Done _ => s1 = s
  | Thrown e =>
      s1 = s /\ exists path, In (Cli.Custom path) l
                            /\ load_custom_module E path = Raise e
  | Exited x =>
      (x = ExitInt 2 /\ exists flag value, s1 = add_event (EvUsage flag value) s)
      \/ (x = ExitInt 0 /\ s1 = add_event EvPrintHelp s /\ In Cli.Help l)
  end.
Proof.
  revert custom. induction l as [|o l IH]; intros custom; simpl.
  - intros H. inversion H. reflexivity.
  - unfold bind.
    destruct (take_action E o custom s) as [[cu|e|x] s2] eqn:Ht;
      apply take_action_inv in Ht.
    + destruct Ht as (-> & _ & _). intros H. apply IH in H.
      destruct r as [v|e|x]; [exact H| |].
      * destruct H as (-> & path & Hin & Hl). split; [reflexivity|].
        exists path. split; [now right | exact Hl].
      * destruct H as [H|(-> & -> & Hin)]; [now left|]. right.
        repeat split. now right.
    + destruct Ht as (-> & _ & path & -> & Hl). intros H. inversion H; subst.
      split; [reflexivity|]. exists path. split; [now left | exact Hl].
    + destruct Ht as (_ & [(-> & -> & ->) | (-> & flag & value & ->)]);
        intros H; inversion H; subst.
      * right. repeat split. now left.
      * left. split; [reflexivity|]. now exists flag, value.
Qed.

Lemma parse_args_inv c s r s1 :
  parse_args E c s = (r, s1) ->
  same_files s s1
  /\ calls_with (log s1) = calls_with (log s)
  /\ match r with
     | Done _ => s1 = s
     | Thrown e =>
         s1 = s /\ exists path, In (Cli.Custom path) (Cli.opts c)
                               /\ load_custom_module E path = Raise e
     | Exited x =>
         (x = ExitInt 2 /\ exists flag value, s1 = add_event (EvUsage flag value) s)
         \/ (x = ExitInt 0 /\ s1 = add_event EvPrintHelp s
             /\ In Cli.Help (Cli.opts c))
     end.
Proof.
  unfold parse_args. intros H.
  assert (Hm : match r with
               | Done _ => s1 = s
               | Thrown e =>
                   s1 = s /\ exists path, In (Cli.Custom path) (Cli.opts c)
                                         /\ load_custom_module E path = Raise e
               | Exited x =>
                   (x = ExitInt 2
                    /\ exists flag value, s1 = add_event (EvUsage flag value) s)
                   \/ (x = ExitInt 0 /\ s1 = add_event EvPrintHelp s
                       /\ In Cli.Help (Cli.opts c))
               end).
  { apply bind_inv in H as [(cu & s2 & H1 & H) | [(e & H1 & ->) | (x & H1 & ->)]].
    - apply consume_optionals_inv in H1 as ->.
      destruct (Cli.extra c).
      + inversion H; subst. reflexivity.
      + unfold parser_error, bind, emit, sys_exit in H. inversion H; subst.
        left. split; [reflexivity|]. now do 2 eexists.
    - exact (consume_optionals_inv _ _ _ _ _ H1).
    - exact (consume_optionals_inv _ _ _ _ _ H1). }
  destruct r as [a|e|x].
  - subst s1. repeat split.
  - destruct Hm as (-> & Hp). repeat split. exact Hp.
  - destruct Hm as [(-> & flag & value & ->) | (-> & -> & Hin)]; simpl;
      rewrite ?calls_with_app; simpl; rewrite ?app_nil_r;
      (split; [repeat split|]); (split; [reflexivity|]).
    + left. split; [reflexivity|]. now exists flag, value.
    + right. now repeat split.
Qed.

(** Past the options that end the run early. *)
Lemma run_past_flags (c : Cli.t) (a : Args.t) (s : state) :
  parse_args E c s = (Done a, s) ->
  Cli.debug c = false -> Cli.version c = false -> Cli.list_mappings c = false ->
  run E c s = (r <~ prepare E a ;; write_out E a (fst r) (snd r)) s.
Proof.
  intros Ha Hdb Hve Hlm. unfold run. unfold bind at 1. rewrite Ha.
  pose proof (parse_args_done E c s a s Ha) as (_ & (custom & Hn) & _).
  assert (Args.debug a = false) as -> by (subst a; exact Hdb).
  assert (Args.version a = false) as -> by (subst a; exact Hve).
  assert (Args.list_mappings a = false) as -> by (subst a; exact Hlm).
  reflexivity.
Qed.

(** ** What the first half hands to the second *)

(** The keyword arguments of the writer (lines 293-297). *)
Lemma prepare_done a s v s1 :
  prepare E a s = (Done v, s1) ->
  exists mapping cont source s0 rows grouped converted kept aggregated body d h f,
    load_mapping E a = Val mapping
    /\ make_container E a mapping = Val cont
    /\ open_source E a s = (Done source, s0)
    /\ read_csv E source (ckwargs a cont mapping) = Val rows
    /\ gen_groups cont rows (Args.chunksize a) = Val grouped
    /\ gen_trxns cont grouped (Args.collapse a) = Val converted
    /\ clean_trxns cont converted = Val kept
    /\ gen_data E kept = Val aggregated
    /\ gen_body cont aggregated = Val body
    /\ (forall st, server_date_of E a source st = (Done d, st))
    /\ header cont d (Args.language a) = Val h
    /\ footer cont d (Args.ending_balance a) = Val f
    /\ v = (content_of h body f,
            {| Wkw.overwrite := Args.overwrite a;
               Wkw.chunksize := Args.chunksize a;
               Wkw.encoding := Args.encoding a |}).
Proof.
  unfold prepare. intros H.
  apply bind_inv in H as [(m & s2 & H1 & H) | [(e & H1 & Hr) | (x & H1 & Hr)]];
    try discriminate.
  apply lift_inv in H1 as [-> H1].
  destruct (load_mapping E a) as [m'|] eqn:Hm; [|discriminate].
  inversion H1; subst m'. clear H1.
  apply bind_inv in H as [(cont & s3 & H2 & H) | [(e & H2 & Hr) | (x & H2 & Hr)]];
    try discriminate.
  apply lift_inv in H2 as [-> H2].
  destruct (make_container E a m) as [cont'|] eqn:Hc; [|discriminate].
  inversion H2; subst cont'. clear H2.
  apply bind_inv in H as [(src & s4 & H3 & H) | [(e & H3 & Hr) | (x & H3 & Hr)]];
    try discriminate.
  unfold try_except in H.
  destruct (build_content E a cont src (ckwargs a cont m) s4) as [[w|e|x] s5] eqn:Hb.
  2: { unfold when, bind, close_source, sys_exit, ret in H.
       destruct (truthy (Args.source a)); discriminate. }
  2: { discriminate. }
  inversion H; subst w s5. clear H.
  unfold build_content, gen_pipeline in Hb.
  revert Hb.
  unfold bind at 1. unfold bind at 1. unfold call at 1. unfold bind at 1.
  unfold emit at 1.
  destruct (read_csv E src (ckwargs a cont m)) as [rows|] eqn:R1; [|discriminate].
  unfold lift at 1, ret at 1.
  unfold bind at 1. unfold call at 1. unfold bind at 1. unfold emit at 1.
  destruct (gen_groups cont rows (Args.chunksize a)) as [grouped|] eqn:R2;
    [|discriminate].
  unfold lift at 1, ret at 1.
  unfold bind at 1. unfold call at 1. unfold bind at 1. unfold emit at 1.
  destruct (gen_trxns cont grouped (Args.collapse a)) as [converted|] eqn:R3;
    [|discriminate].
  unfold lift at 1, ret at 1.
  unfold bind at 1. unfold call at 1. unfold bind at 1. unfold emit at 1.
  destruct (clean_trxns cont converted) as [kept|] eqn:R4; [|discriminate].
  unfold lift at 1, ret at 1.
  unfold bind at 1. unfold call at 1. unfold bind at 1. unfold emit at 1.
  destruct (gen_data E kept) as [aggregated|] eqn:R5; [|discriminate].
  unfold lift at 1, ret at 1.
  unfold call at 1. unfold bind at 1. unfold emit at 1.
  destruct (gen_body cont aggregated) as [body|] eqn:R6; [|discriminate].
  unfold lift at 1, ret at 1.
  unfold bind at 1.
  match goal with
  | |- context [server_date_of E a src ?st] =>
      destruct (server_date_of E a src st) as [[d|e|x] s6] eqn:Hd
  end; try discriminate.
  pose proof (server_date_inv _ _ _ _ _ Hd) as [-> _].
  unfold bind at 1. unfold call at 1. unfold bind at 1. unfold emit at 1.
  destruct (header cont d (Args.language a)) as [h|] eqn:R7; [|discriminate].
  unfold lift at 1, ret at 1.
  unfold bind at 1. unfold call at 1. unfold bind at 1. unfold emit at 1.
  destruct (footer cont d (Args.ending_balance a)) as [f|] eqn:R8; [|discriminate].
  unfold lift at 1, ret at 1. unfold ret.
  intros Hv. inversion Hv; subst.
  exists m, cont, src, s4, rows, grouped, converted, kept, aggregated, body, d, h, f.
  repeat (split; [assumption || reflexivity|]).
  split; [|repeat (split; [assumption || reflexivity|]); reflexivity].
  intros st. clear - Hd.
  unfold server_date_of in *.
  destruct (truthy (Args.server_date a)).
  - unfold lift, ret, throw in *.
    destruct (parse E _ _); inversion Hd; reflexivity.
  - unfold bind, try_except, lift, ret, throw in *.
    destruct (_time_from_file E src) as [t|[]]; inversion Hd; reflexivity.
Qed.

End Run.

(** ** What a computation records *)

Lemma adds_ret {A} (P : event -> Prop) (a : A) : adds P (ret a).
Proof. intros s r s1 H e He. inversion H; subst. now left. Qed.

Lemma adds_throw {A} (P : event -> Prop) (err : exn) : adds P (@throw A err).
Proof. intros s r s1 H e He. inversion H; subst. now left. Qed.

Lemma adds_sys_exit {A} (P : event -> Prop) (x : exit_arg) : adds P (@sys_exit A x).
Proof. intros s r s1 H e He. inversion H; subst. now left. Qed.

Lemma adds_lift {A} (P : event -> Prop) (res : result A) : adds P (lift res).
Proof. destruct res; [apply adds_ret | apply adds_throw]. Qed.

Lemma adds_emit (P : event -> Prop) (e0 : event) : P e0 -> adds P (emit e0).
Proof.
  intros HP s r s1 H e He. inversion H; subst. simpl in He.
  apply in_app_or in He as [He|[<-|[]]]; [now left | now right].
Qed.

Lemma adds_bind {A B} (P : event -> Prop) (m : M A) (k : A -> M B) :
  adds P m ->
  (forall a s s1, m s = (Done a, s1) -> adds P (k a)) ->
  adds P (bind m k).
Proof.
  intros Hm Hk s r s2 H e He.
  apply bind_inv in H as [(a & s1 & H1 & H) | [(err & H1 & ->) | (x & H1 & ->)]].
  - destruct (Hk a s s1 H1 s1 r s2 H e He) as [Hin|HP]; [|now right].
    exact (Hm s _ s1 H1 e Hin).
  - exact (Hm s _ s2 H1 e He).
  - exact (Hm s _ s2 H1 e He).
Qed.

Lemma adds_call {A} (P : event -> Prop) (st : stage) (res : result A) :
  (forall b, P (EvCall st b)) -> adds P (call st res).
Proof.
  intros HP. unfold call. apply adds_bind; [now apply adds_emit|].
  intros. apply adds_lift.
Qed.

Lemma adds_try_except {A} (P : event -> Prop) (m : M A) (h : exn -> M A) :
  adds P m -> (forall err, adds P (h err)) -> adds P (try_except m h).
Proof.
  intros Hm Hh s r s2 H e He. unfold try_except in H.
  destruct (m s) as [[a|err|x] s1] eqn:H1.
  - inversion H; subst. exact (Hm s _ s2 H1 e He).
  - destruct (Hh err s1 r s2 H e He) as [Hin|HP]; [|now right].
    exact (Hm s _ s1 H1 e Hin).
  - inversion H; subst. exact (Hm s _ s2 H1 e He).
Qed.

Lemma adds_finally_exit {A} (P : event -> Prop) (body : M exit_arg)
    (cleanup : M unit) :
  adds P body -> adds P cleanup -> adds P (@finally_exit A body cleanup).
Proof.
  intros Hb Hc s r s2 H e He. unfold finally_exit in H.
  assert (Hthrow : adds P (cleanup ;;; @throw A (OtherError "UnboundLocalError" "msg")))
    by (apply adds_bind; [exact Hc|]; intros; apply adds_throw).
  destruct (body s) as [[msg|err|x] s1] eqn:H1.
  - assert (Hk : adds P (cleanup ;;; @sys_exit A msg))
      by (apply adds_bind; [exact Hc|]; intros; apply adds_sys_exit).
    destruct (Hk s1 r s2 H e He) as [Hin|HP]; [|now right].
    exact (Hb s _ s1 H1 e Hin).
  - destruct (Hthrow s1 r s2 H e He) as [Hin|HP]; [|now right].
    exact (Hb s _ s1 H1 e Hin).
  - destruct (Hthrow s1 r s2 H e He) as [Hin|HP]; [|now right].
    exact (Hb s _ s1 H1 e Hin).
Qed.

Lemma adds_when (P : event -> Prop) (b : bool) (m : M unit) :
  (b = true -> adds P m) -> adds P (when b m).
Proof. destruct b; intros H; [now apply H | apply adds_ret]. Qed.

Lemma adds_close_source (P : event -> Prop) : P EvCloseSource -> adds P close_source.
Proof.
  intros HP s r s1 H e He. inversion H; subst. simpl in He.
  apply in_app_or in He as [He|[<-|[]]]; [now left | now right].
Qed.

Lemma adds_close_dest (P : event -> Prop) : P EvCloseDest -> adds P close_dest.
Proof.
  intros HP s r s1 H e He. inversion H; subst. simpl in He.
  apply in_app_or in He as [He|[<-|[]]]; [now left | now right].
Qed.

Section Events.

Context {records groups trxns cleaned data : Type}.
Variable E : env records groups trxns cleaned data.

Lemma adds_parse_args (P : event -> Prop) (c : Cli.t) :
  (forall flag value, P (EvUsage flag value)) -> P EvPrintHelp ->
  adds P (parse_args E c).
Proof.
  intros HP Hh.
  assert (Herr : forall A flag value, adds P (@parser_error A flag value)).
  { intros A flag value. unfold parser_error. apply adds_bind; [now apply adds_emit|].
    intros. apply adds_sys_exit. }
  assert (Hcc : forall flag choices v, adds P (check_choice flag choices v)).
  { intros flag choices v. unfold check_choice.
    destruct (in_choices choices v); first [apply adds_ret | apply Herr]. }
  assert (Hta : forall o custom, adds P (take_action E o custom)).
  { intros o custom. unfold take_action.
    destruct o; try apply adds_ret; try apply Herr.
    - apply adds_bind; [apply Hcc | intros; apply adds_ret].
    - apply adds_bind; [apply Hcc | intros; apply adds_ret].
    - apply adds_bind; [|intros; apply adds_ret].
      unfold convert_custom.
      destruct (load_custom_module E path) as [m|[]];
        first [apply adds_ret | apply Herr | apply adds_throw].
    - apply adds_bind; [now apply adds_emit | intros; apply adds_sys_exit]. }
  assert (Hco : forall l custom, adds P (consume_optionals E l custom)).
  { induction l as [|o l IH]; intros custom; simpl; [apply adds_ret|].
    apply adds_bind; [apply Hta | intros; apply IH]. }
  unfold parse_args. apply adds_bind; [apply Hco|]. intros custom _ _ _.
  destruct (Cli.extra c); [apply adds_ret | apply Herr].
Qed.

Lemma adds_server_date (P : event -> Prop) a src : adds P (server_date_of E a src).
Proof.
  intros s r s1 H e He. apply server_date_inv in H as [-> _]. now left.
Qed.

Lemma adds_gen_pipeline (P : event -> Prop) a cont src ckw :
  (forall st b, P (EvCall st b)) -> adds P (gen_pipeline E a cont src ckw).
Proof.
  intros HP. unfold gen_pipeline.
  do 5 (apply adds_bind; [apply adds_call; intros; apply HP | intros ? ? ? _]).
  apply adds_call; intros; apply HP.
Qed.

Lemma adds_build_content (P : event -> Prop) a cont src ckw :
  (forall st b, P (EvCall st b)) -> adds P (build_content E a cont src ckw).
Proof.
  intros HP. unfold build_content.
  apply adds_bind; [now apply adds_gen_pipeline | intros ? ? ? _].
  apply adds_bind; [apply adds_server_date | intros ? ? ? _].
  do 2 (apply adds_bind; [apply adds_call; intros; apply HP | intros ? ? ? _]).
  apply adds_ret.
Qed.

Lemma adds_open_source (P : event -> Prop) a :
  (forall p, truthy (Args.source a) = true -> P (EvOpenSource p)) ->
  adds P (open_source E a).
Proof.
  intros HP. unfold open_source.
  destruct (Args.source a) as [path|] eqn:Hsrc; [|apply adds_ret].
  destruct (nonempty path) eqn:Hne; [|apply adds_ret].
  apply adds_bind; [apply adds_lift|]. intros _ _ _ _.
  intros s r s1 H e He. inversion H; subst. simpl in He.
  apply in_app_or in He as [He|[<-|[]]]; [now left|]. right.
  apply HP. simpl. exact Hne.
Qed.

Lemma adds_open_dest (P : event -> Prop) a :
  (forall p, truthy (Args.dest a) = true -> P (EvOpenDest p)) ->
  adds P (open_dest E a).
Proof.
  intros HP. unfold open_dest.
  destruct (Args.dest a) as [path|] eqn:Hd; [|apply adds_ret].
  destruct (nonempty path) eqn:Hne; [|apply adds_ret].
  apply adds_bind; [apply adds_lift|]. intros _ _ _ _.
  intros s r s1 H e He. inversion H; subst. simpl in He.
  apply in_app_or in He as [He|[<-|[]]]; [now left|]. right.
  apply HP. simpl. exact Hne.
Qed.

(** Before the destination is opened, [run] records only calls of the
    stages and what it does with the source. *)
Lemma adds_prepare (P : event -> Prop) a :
  (forall st b, P (EvCall st b)) ->
  (forall p, truthy (Args.source a) = true -> P (EvOpenSource p)) ->
  (truthy (Args.source a) = true -> P EvCloseSource) ->
  adds P (prepare E a).
Proof.
  intros Hcall Hopen Hclose. unfold prepare.
  apply adds_bind; [apply adds_lift|]. intros m _ _ _.
  apply adds_bind; [apply adds_lift|]. intros cont _ _ _.
  apply adds_bind; [now apply adds_open_source|]. intros src _ _ _.
  apply adds_try_except; [now apply adds_build_content|].
  intros err. apply adds_bind; [|intros; apply adds_sys_exit].
  apply adds_when. intros Ht. apply adds_close_source. now apply Hclose.
Qed.

Lemma adds_report (P : event -> Prop) a err :
  P EvTraceback -> P EvPrintHelp -> adds P (report a err).
Proof.
  intros Ht Hh. unfold report.
  destruct err;
    first [apply adds_ret
          | apply adds_bind; [apply adds_emit; assumption | intros; apply adds_ret]].
Qed.

Lemma adds_call_write (P : event -> Prop) a content kw :
  (forall b, P (EvCall Write b)) -> adds P (call_write E a content kw).
Proof.
  intros HP s r s1 H e He. unfold call_write in H.
  apply call_inv in H as [-> _]. simpl in He.
  apply in_app_or in He as [He|[<-|[]]]; auto.
Qed.

Lemma adds_write_out (P : event -> Prop) a content kw :
  (forall b, P (EvCall Write b)) ->
  P EvTraceback -> P EvPrintHelp ->
  (forall p, truthy (Args.dest a) = true -> P (EvOpenDest p)) ->
  (truthy (Args.dest a) = true -> P EvCloseDest) ->
  (truthy (Args.source a) = true -> P EvCloseSource) ->
  adds P (write_out E a content kw).
Proof.
  intros Hw Ht Hh Hod Hcd Hcs. unfold write_out.
  apply adds_bind; [now apply adds_open_dest|]. intros _ _ _ _.
  apply adds_finally_exit.
  - apply adds_try_except; [|intros; now apply adds_report].
    apply adds_bind; [now apply adds_call_write | intros; apply adds_ret].
  - apply adds_bind.
    + apply adds_when. intros Hs. apply adds_close_source. now apply Hcs.
    + intros. apply adds_when. intros Hd. apply adds_close_dest. now apply Hcd.
Qed.

(** From the initial state, the first half records calls of stages and
    what it does with the source, nothing else. *)
Lemma prepare_log a r s2 :
  prepare E a init = (r, s2) ->
  forall e, In e (log s2) ->
    (exists st b, e = EvCall st b) \/ (exists p, e = EvOpenSource p)
    \/ e = EvCloseSource.
Proof.
  intros H e He.
  destruct (adds_prepare
              (fun e => (exists st b, e = EvCall st b) \/ (exists p, e = EvOpenSource p)
                        \/ e = EvCloseSource) a) with (s := init) (r := r) (s1 := s2)
             (e := e) as [[]|HP]; try assumption.
  - intros st b. left. now exists st, b.
  - intros p _. right. left. now exists p.
  - intros _. right. now right.
Qed.

End Events.

(** ** The whole run *)

Section Claims.

Context {records groups trxns cleaned data : Type}.
Variable E : env records groups trxns cleaned data.

Lemma follows_write (b : bool) :
  follows STAGES (all_returned RENDERED ++ [(Write, b)]) = true.
Proof. now destruct b. Qed.

(** What every run does with the stages and with the handles. *)
Lemma run_inv (c : Cli.t) (r : step unit) (s' : state) :
  run E c init = (r, s') ->
  follows STAGES (calls_with (log s')) = true
  /\ (forall x, r = Exited x -> handles_closed s')
  /\ (forall st, In (st, false) (calls_with (log s')) ->
        exists x, r = Exited x /\ exit_status x = 1)
  /\ (handles_closed s'
      \/ exists e path, r = Thrown e
           /\ Cli.dest c = Some path
           /\ open_write E path (or_default (Cli.encoding c) "utf-8") = Raise e).
Proof.
  unfold run. intros H.
  assert (Hi : handles_closed init) by (split; reflexivity).
  apply bind_inv in H as [(a & s1 & H1 & H) | [(e & H1 & ->) | (x & H1 & ->)]].
  2,3: apply parse_args_inv in H1 as ((F1 & F2 & _) & L & _);
       simpl in L; rewrite L;
       (split; [reflexivity|]; split; [intros; now split|];
        split; [intros st []|]; left; now split).
  pose proof (parse_args_done E c init a s1 H1) as (-> & (custom & ->) & _).
  clear H1.
  destruct (Args.debug _);
    [|destruct (Args.version _); [|destruct (Args.list_mappings _)]].
  1-3: unfold bind, emit, sys_exit in H; inversion H; subst; simpl;
       (split; [reflexivity|]; split; [intros; now split|];
        split; [intros st []|]; left; now split).
  apply bind_inv in H as [(v & s2 & H2 & H) | [(e & H2 & ->) | (x & H2 & ->)]].
  - apply (prepare_calls E _ _ _ _ Hi) in H2 as (D & W & tr & L & Hf & So & ->).
    simpl in L.
    apply write_out_inv in H as
        [(e & path & -> & -> & Hp & Hw) | (x & -> & Hc & _ & L2 & Hx & _)];
      [| |exact So|exact D].
    + rewrite L. split; [exact (follows_app_l RENDERED [Write] _ Hf)|].
      split; [discriminate|].
      split; [intros st Hin; destruct (all_returned_no_failure RENDERED st Hin)|].
      right. exists e, path. repeat split; assumption.
    + rewrite L2, L. split; [apply follows_write|].
      split; [intros; exact Hc|]. split; [|now left].
      intros st Hin. apply in_app_or in Hin as [Hin|[Hin|[]]].
      * destruct (all_returned_no_failure RENDERED st Hin).
      * exists x. split; [reflexivity|]. apply Hx.
        now inversion Hin.
  - apply (prepare_calls E _ _ _ _ Hi) in H2 as (D & W & tr & L & Hf & So & ->).
    simpl in L. rewrite L.
    split; [reflexivity|]. split; [discriminate|].
    split; [intros st []|]. left. now split.
  - apply (prepare_calls E _ _ _ _ Hi) in H2 as (D & W & tr & L & Hf & So & err & ->).
    simpl in L. rewrite L.
    split; [exact (follows_app_l RENDERED [Write] _ Hf)|].
    split; [intros; now split|].
    split; [intros st _; now exists (ExitExn err)|]. left. now split.
Qed.

Lemma follows_member (sts : list stage) (tr : list (stage * bool)) st b :
  follows sts tr = true -> In (st, b) tr -> In st sts.
Proof.
  intros Hf Hin. destruct (follows_prefix _ _ Hf) as (_ & n & Hn).
  apply (in_firstn st n). rewrite <- Hn.
  change st with (fst (st, b)). now apply in_map.
Qed.

Lemma write_not_rendered (tr : list (stage * bool)) (b : bool) :
  follows RENDERED tr = true -> ~ In (Write, b) tr.
Proof.
  intros Hf Hin. apply (follows_member _ _ _ _ Hf) in Hin.
  simpl in Hin. intuition discriminate.
Qed.

(** The first half, step by step: when every step returns, [prepare]
    returns the content and the keyword arguments of the writer. *)
Lemma prepare_forward (a : Args.t) mapping cont source s s0 body d h f :
  load_mapping E a = Val mapping ->
  make_container E a mapping = Val cont ->
  open_source E a s = (Done source, s0) ->
  stages_composed E a cont source (ckwargs a cont mapping) = Val body ->
  (forall st, server_date_of E a source st = (Done d, st)) ->
  header cont d (Args.language a) = Val h ->
  footer cont d (Args.ending_balance a) = Val f ->
  exists s2,
    prepare E a s
    = (Done (content_of h body f,
             {| Wkw.overwrite := Args.overwrite a;
                Wkw.chunksize := Args.chunksize a;
                Wkw.encoding := Args.encoding a |}), s2).
Proof.
  intros Hm Hc Ho Hb Hd Hh Hf.
  unfold prepare. unfold bind at 1. rewrite Hm. simpl.
  unfold bind at 1. rewrite Hc. simpl.
  unfold bind at 1. rewrite Ho.
  unfold try_except, build_content. unfold bind at 1.
  pose proof (gen_pipeline_value E a cont source (ckwargs a cont mapping) s0) as Hv.
  rewrite Hb in Hv. simpl in Hv.
  destruct (gen_pipeline E a cont source (ckwargs a cont mapping) s0)
    as [[body'|e|x] s1] eqn:Hp; simpl in Hv; try discriminate.
  inversion Hv; subst body'.
  unfold bind at 1. rewrite Hd.
  unfold bind at 1. unfold call at 1. unfold bind at 1. unfold emit at 1.
  rewrite Hh. unfold lift at 1, ret at 1.
  unfold bind at 1. unfold call at 1. unfold bind at 1. unfold emit at 1.
  rewrite Hf. unfold lift at 1, ret at 1. unfold ret.
  eexists. reflexivity.
Qed.

(** The six stages as one composition, and one by one. *)
Lemma stages_composed_steps (a : Args.t) cont source ckw body :
  stages_composed E a cont source ckw = Val body <->
  exists rows grouped converted kept aggregated,
    read_csv E source ckw = Val rows
    /\ gen_groups cont rows (Args.chunksize a) = Val grouped
    /\ gen_trxns cont grouped (Args.collapse a) = Val converted
    /\ clean_trxns cont converted = Val kept
    /\ gen_data E kept = Val aggregated
    /\ gen_body cont aggregated = Val body.
Proof.
  unfold stages_composed, rbind. split.
  - destruct (read_csv E source ckw) as [rows|] eqn:R1; [|discriminate].
    destruct (gen_groups cont rows (Args.chunksize a)) as [grouped|] eqn:R2;
      [|discriminate].
    destruct (gen_trxns cont grouped (Args.collapse a)) as [converted|] eqn:R3;
      [|discriminate].
    destruct (clean_trxns cont converted) as [kept|] eqn:R4; [|discriminate].
    destruct (gen_data E kept) as [aggregated|] eqn:R5; [|discriminate].
    intros H. exists rows, grouped, converted, kept, aggregated.
    repeat split; assumption.
  - intros (rows & grouped & converted & kept & aggregated
            & -> & -> & -> & -> & -> & H). exact H.
Qed.

(** A run in which the writer is called: what led to the call, and what
    the call leaves. *)
Lemma run_reaches_writer (c : Cli.t) (r : step unit) (s' : state) (b : bool) :
  run E c init = (r, s') ->
  In (Write, b) (calls_with (log s')) ->
  exists a v s2,
    parse_args E c init = (Done a, init)
    /\ Cli.debug c = false /\ Cli.version c = false /\ Cli.list_mappings c = false
    /\ prepare E a init = (Done v, s2)
    /\ written s' = fst (write E (Args.dest a) (fst v) (snd v))
    /\ b = is_val (snd (write E (Args.dest a) (fst v) (snd v)))
    /\ calls_with (log s') = all_returned RENDERED ++ [(Write, b)]
    /\ handles_closed s'
    /\ exists x, r = Exited x
         /\ match snd (write E (Args.dest a) (fst v) (snd v)) with
            | Val res => x = report_written res
            | Raise err => exists st st', report a err st = (Done x, st')
            end.
Proof.
  unfold run. intros H Hin.
  assert (Hi : handles_closed init) by (split; reflexivity).
  apply bind_inv in H as [(a & s1 & H1 & H) | [(e & H1 & ->) | (x & H1 & ->)]].
  2,3: apply parse_args_inv in H1 as (_ & L & _); simpl in L; rewrite L in Hin;
       destruct Hin.
  pose proof (parse_args_done E c init a s1 H1) as (-> & (custom & Ha) & _).
  assert (Hdb : Args.debug a = Cli.debug c) by (subst a; reflexivity).
  assert (Hve : Args.version a = Cli.version c) by (subst a; reflexivity).
  assert (Hlm : Args.list_mappings a = Cli.list_mappings c) by (subst a; reflexivity).
  clear Ha. rewrite Hdb, Hve, Hlm in H.
  destruct (Cli.debug c);
    [|destruct (Cli.version c); [|destruct (Cli.list_mappings c)]].
  1-3: unfold bind, emit, sys_exit in H; inversion H; subst; simpl in Hin;
       destruct Hin.
  apply bind_inv in H as [(v & s2 & H2 & H) | [(e & H2 & ->) | (x & H2 & ->)]].
  - pose proof (prepare_calls E _ _ _ _ Hi H2) as (D & W & tr & L & Hf & So & ->).
    simpl in L.
    apply write_out_inv in H as
        [(e & path & -> & -> & Hp & Hw) | (x & -> & Hc & Hwr & L2 & _ & Hx)];
      [| |exact So|exact D].
    + rewrite L in Hin. now apply write_not_rendered in Hin.
    + rewrite L2, L in Hin. apply in_app_or in Hin as [Hin|[Hin|[]]].
      { now apply write_not_rendered in Hin. }
      inversion Hin as [Hb]. clear Hin.
      exists a, v, s2. repeat (split; [reflexivity || assumption|]).
      split; [rewrite Hwr, W; reflexivity|].
      split; [reflexivity|].
      split; [rewrite L2, L; reflexivity|].
      split; [exact Hc|]. exists x. split; [reflexivity | exact Hx].
  - apply (prepare_calls E _ _ _ _ Hi) in H2 as (D & W & tr & L & Hf & So & ->).
    simpl in L. rewrite L in Hin. destruct Hin.
  - apply (prepare_calls E _ _ _ _ Hi) in H2 as (D & W & tr & L & Hf & So & err & ->).
    simpl in L. rewrite L in Hin. now apply write_not_rendered in Hin.
Qed.

(** The run when every step up to the writer returns and the destination
    can be opened. *)
Lemma run_forward (c : Cli.t) (a : Args.t) mapping cont source s0 body d h f :
  parse_args E c init = (Done a, init) ->
  Cli.debug c = false -> Cli.version c = false -> Cli.list_mappings c = false ->
  load_mapping E a = Val mapping ->
  make_container E a mapping = Val cont ->
  open_source E a init = (Done source, s0) ->
  stages_composed E a cont source (ckwargs a cont mapping) = Val body ->
  (forall st, server_date_of E a source st = (Done d, st)) ->
  header cont d (Args.language a) = Val h ->
  footer cont d (Args.ending_balance a) = Val f ->
  (forall path, Args.dest a = Some path ->
     open_write E path (Args.encoding a) = Val tt) ->
  let kw := {| Wkw.overwrite := Args.overwrite a;
               Wkw.chunksize := Args.chunksize a;
               Wkw.encoding := Args.encoding a |} in
  let w := write E (Args.dest a) (content_of h body f) kw in
  exists x s',
    run E c init = (Exited x, s')
    /\ written s' = fst w
    /\ calls_with (log s') = all_returned RENDERED ++ [(Write, is_val (snd w))]
    /\ handles_closed s'
    /\ match snd w with
       | Val res => x = report_written res
       | Raise err => exists st st', report a err st = (Done x, st')
       end.
Proof.
  intros Ha Hdb Hve Hlm Hm Hc Ho Hb Hd Hh Hf Hw kw w.
  assert (Hi : handles_closed init) by (split; reflexivity).
  destruct (prepare_forward a mapping cont source init s0 body d h f
              Hm Hc Ho Hb Hd Hh Hf) as (s2 & Hp).
  fold kw in Hp.
  pose proof (prepare_calls E _ _ _ _ Hi Hp) as (D & W & tr & L & _ & So & ->).
  simpl in L.
  assert (Hrun : run E c init = write_out E a (content_of h body f) kw s2).
  { unfold run. unfold bind at 1. rewrite Ha.
    pose proof (parse_args_done E c init a init Ha) as (_ & (custom & Hn) & _).
    assert (Args.debug a = false) as -> by (subst a; exact Hdb).
    assert (Args.version a = false) as -> by (subst a; exact Hve).
    assert (Args.list_mappings a = false) as -> by (subst a; exact Hlm).
    unfold bind at 1. rewrite Hp. reflexivity. }
  destruct (write_out E a (content_of h body f) kw s2) as [r s'] eqn:Hwo.
  apply write_out_inv in Hwo as
      [(e & path & -> & -> & Hpath & Hraise) | (x & -> & Hcl & Hwr & L2 & _ & Hx)];
    [| |exact So|exact D].
  - rewrite (Hw path Hpath) in Hraise. discriminate.
  - exists x, s'. split; [exact Hrun|].
    split; [rewrite Hwr, W; reflexivity|].
    split; [rewrite L2, L; reflexivity|].
    split; [exact Hcl | exact Hx].
Qed.

(** C1. The stages run in the fixed order of the source.  In every run the
    calls recorded are a prefix of read, group, convert, clean, aggregate,
    render body (then header, footer, write), none skipped and none out of
    order.  When each stage returns on the result of the stage before it
    - the rows read with the hints of the mapping, grouped with the chunk
    size, converted with the collapse key, cleaned, aggregated, rendered -
    and the header, the footer and the destination are there, every stage
    is called once, in this order, and what the writer receives is built
    from the body that the last of the six stages returned.  Conversely the
    writer is called in no other run: whenever it is called, the six
    stages have returned, each on the result of the one before, and its
    content is built from their body. *)
Theorem stages_in_order (c : Cli.t) (r : step unit) (s' : state) :
  run E c init = (r, s') ->
  (exists n, calls_of (log s') = firstn n STAGES)
  /\ (forall a mapping cont source s0 rows grouped converted kept aggregated
             body d h f,
        parse_args E c init = (Done a, init) ->
        Cli.debug c = false -> Cli.version c = false ->
        Cli.list_mappings c = false ->
        load_mapping E a = Val mapping ->
        make_container E a mapping = Val cont ->
        open_source E a init = (Done source, s0) ->
        read_csv E source (ckwargs a cont mapping) = Val rows ->
        gen_groups cont rows (Args.chunksize a) = Val grouped ->
        gen_trxns cont grouped (Args.collapse a) = Val converted ->
        clean_trxns cont converted = Val kept ->
        gen_data E kept = Val aggregated ->
        gen_body cont aggregated = Val body ->
        (forall st, server_date_of E a source st = (Done d, st)) ->
        header cont d (Args.language a) = Val h ->
        footer cont d (Args.ending_balance a) = Val f ->
        (forall path, Args.dest a = Some path ->
           open_write E path (Args.encoding a) = Val tt) ->
        exists b,
          calls_with (log s') = all_returned RENDERED ++ [(Write, b)]
          /\ written s'
             = fst (write E (Args.dest a) (content_of h body f)
                      {| Wkw.overwrite := Args.overwrite a;
                         Wkw.chunksize := Args.chunksize a;
                         Wkw.encoding := Args.encoding a |}))
  /\ (forall b, In (Write, b) (calls_with (log s')) ->
        calls_with (log s') = all_returned RENDERED ++ [(Write, b)]
        /\ exists a mapping cont source s0 rows grouped converted kept aggregated
                  body d h f,
             parse_args E c init = (Done a, init)
             /\ load_mapping E a = Val mapping
             /\ make_container E a mapping = Val cont
             /\ open_source E a init = (Done source, s0)
             /\ read_csv E source (ckwargs a cont mapping) = Val rows
             /\ gen_groups cont rows (Args.chunksize a) = Val grouped
             /\ gen_trxns cont grouped (Args.collapse a) = Val converted
             /\ clean_trxns cont converted = Val kept
             /\ gen_data E kept = Val aggregated
             /\ gen_body cont aggregated = Val body
             /\ header cont d (Args.language a) = Val h
             /\ footer cont d (Args.ending_balance a) = Val f
             /\ written s'
                = fst (write E (Args.dest a) (content_of h body f)
                         {| Wkw.overwrite := Args.overwrite a;
                            Wkw.chunksize := Args.chunksize a;
                            Wkw.encoding := Args.encoding a |})).
Proof.
  intros H.
  split; [exact (proj2 (follows_prefix _ _ (proj1 (run_inv c r s' H))))|].
  split.
  - intros a mapping cont source s0 rows grouped converted kept aggregated
      body d h f Ha Hdb Hve Hlm Hm Hc Ho R1 R2 R3 R4 R5 R6 Hd Hh Hf Hw.
    assert (Hb : stages_composed E a cont source (ckwargs a cont mapping) = Val body).
    { apply stages_composed_steps.
      exists rows, grouped, converted, kept, aggregated.
      repeat split; assumption. }
    destruct (run_forward c a mapping cont source s0 body d h f
                Ha Hdb Hve Hlm Hm Hc Ho Hb Hd Hh Hf Hw)
      as (x & s1 & Hrun & Hwr & L & _).
    rewrite Hrun in H. inversion H; subst.
    eexists. split; [exact L | exact Hwr].
  - intros b Hin.
    destruct (run_reaches_writer c r s' b H Hin)
      as (a & v & s2 & Ha & _ & _ & _ & Hp & Hwr & _ & L & _).
    split; [exact L|].
    destruct (prepare_done E a init v s2 Hp)
      as (mapping & cont & source & s0 & rows & grouped & converted & kept
          & aggregated & body & d & h & f
          & Hm & Hc & Ho & R1 & R2 & R3 & R4 & R5 & R6 & _ & Hh & Hf & ->).
    exists a, mapping, cont, source, s0, rows, grouped, converted, kept,
      aggregated, body, d, h, f.
    repeat (split; [assumption|]). exact Hwr.
Qed.

(** C2. What the run hands to the writer is the header, then the body,
    then the footer.  When the header, the body and the footer have been
    generated and the destination can be opened, the writer is called with
    the chain of what the three sections contribute, in this order, a
    section that is [None] or empty contributing nothing (it is left out of
    the chain, not iterated); and when no section raises while it is
    drained, the fragments are those of the header followed by those of the
    body in their order followed by those of the footer, and the text is the
    concatenation of the three texts. *)
Theorem output_is_header_body_footer (c : Cli.t) (a : Args.t)
    (mapping : gmap string pyval) (cont : container records groups trxns cleaned data)
    (source : source_obj) (s0 : state) (body h f : section) (d : datetime) :
  parse_args E c init = (Done a, init) ->
  Cli.debug c = false -> Cli.version c = false -> Cli.list_mappings c = false ->
  load_mapping E a = Val mapping ->
  make_container E a mapping = Val cont ->
  open_source E a init = (Done source, s0) ->
  stages_composed E a cont source (ckwargs a cont mapping) = Val body ->
  (forall st, server_date_of E a source st = (Done d, st)) ->
  header cont d (Args.language a) = Val h ->
  footer cont d (Args.ending_balance a) = Val f ->
  (forall path, Args.dest a = Some path ->
     open_write E path (Args.encoding a) = Val tt) ->
  let kw := {| Wkw.overwrite := Args.overwrite a;
               Wkw.chunksize := Args.chunksize a;
               Wkw.encoding := Args.encoding a |} in
  (exists x s',
     run E c init = (Exited x, s')
     /\ written s' = fst (write E (Args.dest a) (content_of h body f) kw)
     /\ In (Write, is_val (snd (write E (Args.dest a) (content_of h body f) kw)))
          (calls_with (log s')))
  /\ content_of h body f
     = chain (contribution h) (chain (contribution body) (contribution f))
  /\ (forall s, section_truthy s = false -> contribution s = stream_nil)
  /\ (snd (contribution h) = None ->
      snd (contribution body) = None ->
      snd (contribution f) = None ->
      content_of h body f
      = (fst (contribution h) ++ fst (contribution body) ++ fst (contribution f),
         None)
      /\ text_of (fst (content_of h body f))
         = section_text h +:+ section_text body +:+ section_text f).
Proof.
  intros Ha Hdb Hve Hlm Hm Hc Ho Hb Hd Hh Hf Hw kw.
  split.
  - destruct (run_forward c a mapping cont source s0 body d h f
                Ha Hdb Hve Hlm Hm Hc Ho Hb Hd Hh Hf Hw)
      as (x & s' & Hrun & Hwr & L & _).
    exists x, s'. split; [exact Hrun|]. split; [exact Hwr|].
    rewrite L. apply in_or_app. right. now left.
  - split; [apply content_of_chain|].
    split; [exact contribution_omitted|].
    apply content_of_sections.
Qed.

(** C7. Every exit through [sys.exit] - success, a failure of a stage of
    the first [try], a failure while writing - leaves no handle open: the
    source handle and the destination handle that were opened from a path
    are closed.  A stage that raises is the last stage called, and the run
    then exits with a nonzero status.  A handle can stay open on one path
    only, which is no stage of the pipeline: when opening the destination
    itself raises, that exception leaves [run] with the source still open. *)
Theorem handles_closed_on_exit (c : Cli.t) (r : step unit) (s' : state) :
  run E c init = (r, s') ->
  (forall x, r = Exited x -> handles_closed s')
  /\ (forall st, In (st, false) (calls_with (log s')) ->
        handles_closed s' /\ exists x, r = Exited x /\ exit_status x = 1)
  /\ aborted_at_failure (log s') = true
  /\ (handles_closed s'
      \/ exists e path, r = Thrown e
           /\ Cli.dest c = Some path
           /\ open_write E path (or_default (Cli.encoding c) "utf-8") = Raise e).
Proof.
  intros H. apply run_inv in H as (Hf & Hx & Hfail & Hopen).
  split; [exact Hx|]. split.
  - intros st Hin. destruct (Hfail st Hin) as (x & -> & Hs).
    split; [now apply (Hx x) | now exists x].
  - split; [exact (proj1 (follows_prefix _ _ Hf)) | exact Hopen].
Qed.

End Claims.

Lemma stages_in_order_witness :
  exists b,
    calls_with (log Example.final) = all_returned RENDERED ++ [(Write, b)]
    /\ written Example.final
       = fst (write (Example.world [Example.store] false None) (Some "out.ofx")
                (content_of (SStr "<OFX>ENG;") (SGen (["Store;"], None))
                   (SStr "</OFX>"))
                {| Wkw.overwrite := false; Wkw.chunksize := 2 ^ 14;
                   Wkw.encoding := "utf-8" |}).
Proof.
  assert (H : run (Example.world [Example.store] false None) Example.cli init
              = (Exited (ExitInt 0), Example.final)) by (vm_compute; reflexivity).
  destruct (stages_in_order _ _ _ _ H) as (_ & Hforward & _).
  refine (Hforward
            (namespace (Example.world [Example.store] false None) Example.cli None)
            Example.mapping (Example.renderer false Example.okw0)
            {| name := Some "in.csv" |} Fixtures.opened
            [Example.store] [Example.store] [Example.store] [Example.store]
            (aggregate Example.epsilon Example.balance_message false None 0
               [Example.store])
            (SGen (["Store;"], None)) 1600000000 (SStr "<OFX>ENG;") (SStr "</OFX>")
            eq_refl eq_refl eq_refl eq_refl eq_refl eq_refl eq_refl eq_refl
            eq_refl eq_refl eq_refl eq_refl eq_refl (fun st => eq_refl)
            eq_refl eq_refl _).
  intros path Hp. inversion Hp; subst path. reflexivity.
Defined.

Lemma output_is_header_body_footer_witness :
  exists x s',
    run (Example.world [Example.store] false None) Example.cli init = (Exited x, s')
    /\ written s' = "<OFX>ENG;Store;</OFX>".
Proof.
  destruct (output_is_header_body_footer
              (Example.world [Example.store] false None) Example.cli
              (namespace (Example.world [Example.store] false None) Example.cli None)
              Example.mapping (Example.renderer false Example.okw0)
              {| name := Some "in.csv" |} Fixtures.opened
              (SGen (["Store;"], None)) (SStr "<OFX>ENG;") (SStr "</OFX>") 1600000000
              eq_refl eq_refl eq_refl eq_refl eq_refl eq_refl eq_refl eq_refl
              (fun st => eq_refl) eq_refl eq_refl)
    as ((x & s' & Hrun & Hwr & _) & _).
  - intros path Hp. inversion Hp; subst path. reflexivity.
  - exists x, s'. split; [exact Hrun | exact Hwr].
Defined.

Lemma handles_closed_on_exit_witness :
  handles_closed Example.final /\ aborted_at_failure (log Example.final) = true.
Proof.
  assert (H : run (Example.world [Example.store] false None) Example.cli init
              = (Exited (ExitInt 0), Example.final)) by (vm_compute; reflexivity).
  destruct (handles_closed_on_exit _ _ _ _ H) as (Hx & _ & Ha & _).
  split; [exact (Hx _ eq_refl) | exact Ha].
Defined.

(** ** What the second [try] reports *)

Lemma string_app_length (a b : string) :
  String.length (a +:+ b) = (String.length a + String.length b)%nat.
Proof.
  induction a as [|x a IH]; [reflexivity|].
  change (String x a +:+ b) with (String x (a +:+ b)). simpl. now rewrite IH.
Qed.

(** Two texts that are equal end alike. *)
Lemma string_app_same_end (x y u v : string) :
  String.length u = String.length v -> x +:+ u = y +:+ v -> u = v.
Proof.
  revert y. induction x as [|a x IH]; intros y Hlen H.
  - change (EmptyString +:+ u) with u in H. subst u.
    rewrite string_app_length in Hlen.
    destruct y as [|b y]; [reflexivity|]. simpl in Hlen. lia.
  - change (String a x +:+ u) with (String a (x +:+ u)) in H.
    destruct y as [|b y].
    + change (EmptyString +:+ v) with v in H. subst v.
      simpl in Hlen. rewrite string_app_length in Hlen. lia.
    + change (String b y +:+ v) with (String b (y +:+ v)) in H.
      inversion H. now apply (IH y).
Qed.

(** The report of a [BalanceError] is none of the reports of an empty
    result. *)
Lemma balance_report_differs (t : string) :
  (t +:+ ".  Try again with `--ending-balance` option."
   <> "No data to write. Check `start` and `end` options.")
  /\ forall m,
       (t +:+ ".  Try again with `--ending-balance` option."
        <> "No data to write. " +:+ m +:+ ". " +:+ "Check `start` and `end` options.")
       /\ (t +:+ ".  Try again with `--ending-balance` option."
           <> "No data to write. " +:+ m +:+ ". " +:+ "Try again with `-c` option.").
Proof.
  assert (Hb : t +:+ ".  Try again with `--ending-balance` option."
               = (t +:+ ".  Try again with `--ending-balanc") +:+ "e` option.")
    by (rewrite string_app_assoc; reflexivity).
  rewrite Hb. split; [|intros m; split]; intros H.
  - change "No data to write. Check `start` and `end` options."
      with ("No data to write. Check `start` and `end" +:+ "` options.") in H.
    apply string_app_same_end in H; [discriminate | reflexivity].
  - assert (Hm : "No data to write. " +:+ m +:+ ". "
                 +:+ "Check `start` and `end` options."
                 = ("No data to write. " +:+ m +:+ ". Check `start` and `end")
                   +:+ "` options.")
      by (rewrite !string_app_assoc; reflexivity).
    rewrite Hm in H.
    apply string_app_same_end in H; [discriminate | reflexivity].
  - assert (Hm : "No data to write. " +:+ m +:+ ". "
                 +:+ "Try again with `-c` option."
                 = ("No data to write. " +:+ m +:+ ". Try again with `-")
                   +:+ "c` option.")
      by (rewrite !string_app_assoc; reflexivity).
    rewrite Hm in H.
    apply string_app_same_end in H; [discriminate | reflexivity].
Qed.

Section Reports.

Context {records groups trxns cleaned data : Type}.
Variable E : env records groups trxns cleaned data.

Lemma open_dest_ok (a : Args.t) (s : state) :
  (forall path, Args.dest a = Some path ->
     open_write E path (Args.encoding a) = Val tt) ->
  exists s0,
    open_dest E a s = (Done tt, s0)
    /\ forall e, In e (log s0) -> In e (log s) \/ exists p, e = EvOpenDest p.
Proof.
  intros Hw. unfold open_dest.
  destruct (Args.dest a) as [path|]; [|eexists; split; [reflexivity | now left]].
  destruct (nonempty path); [|eexists; split; [reflexivity | now left]].
  unfold bind, lift. rewrite (Hw path eq_refl). simpl.
  eexists. split; [reflexivity|]. simpl. intros e He.
  apply in_app_or in He as [He|[<-|[]]]; [now left|]. right. now exists path.
Qed.

Lemma cleanup_log (a : Args.t) (s : state) :
  exists s1,
    (when (truthy (Args.source a)) close_source ;;;
     when (truthy (Args.dest a)) close_dest) s = (Done tt, s1)
    /\ (forall e, In e (log s) -> In e (log s1))
    /\ (forall e, In e (log s1) -> In e (log s) \/ e = EvCloseSource \/ e = EvCloseDest).
Proof.
  unfold when, bind, close_source, close_dest, ret.
  destruct (truthy (Args.source a)), (truthy (Args.dest a)); simpl;
    eexists; (split; [reflexivity|]); simpl; split; intros e He;
    rewrite ?List.in_app_iff in *; simpl in *; intuition (try congruence; auto).
Qed.

(** What an [except] clause of the second [try] gives does not depend on
    the state in which it is entered. *)
Lemma report_shift (a : Args.t) (err : exn) (st : state) :
  exists x st',
    report a err st = (Done x, st')
    /\ fst (report a err init) = Done x
    /\ forall e, In e (log st') <-> In e (log st) \/ In e (log (snd (report a err init))).
Proof.
  unfold report, bind, emit, ret.
  destruct err; simpl; do 2 eexists; (split; [reflexivity|]);
    (split; [reflexivity|]); intros e; simpl;
    rewrite ?List.in_app_iff; simpl; tauto.
Qed.

(** The second half of the run, from the content to the exit. *)
Lemma run_after_prepare (c : Cli.t) (a : Args.t) (content : stream string)
    (kw : Wkw.t) (s2 : state) :
  parse_args E c init = (Done a, init) ->
  Cli.debug c = false -> Cli.version c = false -> Cli.list_mappings c = false ->
  prepare E a init = (Done (content, kw), s2) ->
  (forall path, Args.dest a = Some path ->
     open_write E path (Args.encoding a) = Val tt) ->
  exists x s',
    run E c init = (Exited x, s')
    /\ handles_closed s'
    /\ written s' = fst (write E (Args.dest a) content kw)
    /\ calls_with (log s')
       = all_returned RENDERED
         ++ [(Write, is_val (snd (write E (Args.dest a) content kw)))]
    /\ match snd (write E (Args.dest a) content kw) with
       | Val res =>
           x = report_written res
           /\ ~ In EvTraceback (log s') /\ ~ In EvPrintHelp (log s')
       | Raise err =>
           fst (report a err init) = Done x
           /\ (In EvTraceback (log s')
               <-> In EvTraceback (log (snd (report a err init))))
           /\ (In EvPrintHelp (log s')
               <-> In EvPrintHelp (log (snd (report a err init))))
       end.
Proof.
  intros Ha Hdb Hve Hlm Hp Hw.
  assert (Hi : handles_closed init) by (split; reflexivity).
  pose proof (prepare_log E a _ _ Hp) as Hlog.
  pose proof (prepare_calls E _ _ _ _ Hi Hp) as (D & W & tr & L & _ & So & ->).
  simpl in L.
  assert (Hrun : run E c init = write_out E a content kw s2).
  { unfold run. unfold bind at 1. rewrite Ha.
    pose proof (parse_args_done E c init a init Ha) as (_ & (custom & Hn) & _).
    assert (Args.debug a = false) as -> by (subst a; exact Hdb).
    assert (Args.version a = false) as -> by (subst a; exact Hve).
    assert (Args.list_mappings a = false) as -> by (subst a; exact Hlm).
    unfold bind at 1. rewrite Hp. reflexivity. }
  destruct (open_dest_ok a s2 Hw) as (s0 & Ho & Hev).
  assert (Hquiet : forall e, In e (log s0) -> e <> EvTraceback /\ e <> EvPrintHelp).
  { intros e He. apply Hev in He as [He|[p ->]]; [|split; discriminate].
    apply Hlog in He as [(st & b & ->)|[(p & ->)| ->]]; split; discriminate. }
  destruct (write_out E a content kw s2) as [r s'] eqn:Hwo.
  pose proof Hwo as Hinv.
  apply write_out_inv in Hinv as
      [(e & path & -> & -> & Hpath & Hraise) | (x & -> & Hcl & Hwr & L2 & _ & _)];
    [| |exact So|exact D].
  { rewrite (Hw path Hpath) in Hraise. discriminate. }
  exists x, s'. split; [exact Hrun|]. split; [exact Hcl|].
  split; [rewrite Hwr, W; reflexivity|].
  split; [rewrite L2, L; reflexivity|].
  unfold write_out in Hwo. unfold bind at 1 in Hwo. rewrite Ho in Hwo.
  unfold finally_exit, try_except in Hwo. unfold bind at 1 in Hwo.
  unfold call_write in Hwo.
  destruct (write E (Args.dest a) content kw) as [text [res|err]]; simpl in Hwo |- *.
  - destruct (cleanup_log a (add_event (EvCall Write true) (add_written text s0)))
      as (s4 & Hc & _ & Hin).
    unfold bind at 1 in Hwo. rewrite Hc in Hwo. unfold sys_exit in Hwo.
    inversion Hwo; subst. split; [reflexivity|].
    split; intros He; apply Hin in He as [He|[He|He]]; try discriminate;
      simpl in He; apply in_app_or in He as [He|[He|[]]]; try discriminate;
      apply Hquiet in He as [H1 H2]; congruence.
  - destruct (report_shift a err
                (add_event (EvCall Write false) (add_written text s0)))
      as (x' & s3 & Hr & Hx & Hlogr).
    rewrite Hr in Hwo.
    destruct (cleanup_log a s3) as (s4 & Hc & Hkeep & Hin).
    unfold bind at 1 in Hwo. rewrite Hc in Hwo. unfold sys_exit in Hwo.
    inversion Hwo; subst. split; [exact Hx|].
    assert (Hboth : forall e, e = EvTraceback \/ e = EvPrintHelp ->
              (In e (log s') <-> In e (log (snd (report a err init))))).
    { intros e Hwhich. split.
      - intros He. apply Hin in He as [He|[He|He]];
          [|destruct Hwhich; congruence|destruct Hwhich; congruence].
        apply Hlogr in He as [He|He]; [|exact He].
        simpl in He. apply in_app_or in He as [He|[He|[]]];
          [|destruct Hwhich; congruence].
        apply Hquiet in He as [H1 H2]. destruct Hwhich; congruence.
      - intros He. apply Hkeep. apply Hlogr. now right. }
    split; apply Hboth; [now left | now right].
Qed.

(** C5 (as the code has it). The run reports that there is nothing to
    write in two cases, which it tells from what the writer does, once the
    destination is open.  When the writer raises a [TypeError], the exit
    message is "No data to write." with the text of the error and then,
    when a collapse key was given, the advice to check [start] and [end],
    and otherwise the advice to try again with [-c].  When the writer
    returns a zero count, the message is "No data to write. Check `start`
    and `end` options." whether or not a collapse key was given.  Both are
    exits with a message and status 1, with both handles closed, and
    neither a traceback nor the help is printed.  No other outcome is
    reported this way: a writer that returns another count gives the exit
    status 0, and an exception of any class but [TypeError] comes with a
    traceback, or with the help, or with another message than these. *)
Theorem no_data_reported (c : Cli.t) (a : Args.t) (content : stream string)
    (kw : Wkw.t) (s2 : state) :
  parse_args E c init = (Done a, init) ->
  Cli.debug c = false -> Cli.version c = false -> Cli.list_mappings c = false ->
  prepare E a init = (Done (content, kw), s2) ->
  (forall path, Args.dest a = Some path ->
     open_write E path (Args.encoding a) = Val tt) ->
  exists x s',
    run E c init = (Exited x, s')
    /\ handles_closed s'
    /\ (forall m, snd (write E (Args.dest a) content kw) = Raise (TypeError m) ->
          x = ExitStr ("No data to write. " +:+ m +:+ ". "
                       +:+ (if truthy (Cli.collapse c)
                            then "Check `start` and `end` options."
                            else "Try again with `-c` option."))
          /\ exit_status x = 1
          /\ ~ In EvTraceback (log s') /\ ~ In EvPrintHelp (log s'))
    /\ (snd (write E (Args.dest a) content kw) = Val 0 ->
          x = ExitStr "No data to write. Check `start` and `end` options."
          /\ exit_status x = 1
          /\ ~ In EvTraceback (log s') /\ ~ In EvPrintHelp (log s'))
    /\ (forall res, snd (write E (Args.dest a) content kw) = Val res ->
          res <> 0 -> x = ExitInt 0)
    /\ (forall err, snd (write E (Args.dest a) content kw) = Raise err ->
          (forall m, err <> TypeError m) ->
          In EvTraceback (log s') \/ In EvPrintHelp (log s')
          \/ (x <> ExitStr "No data to write. Check `start` and `end` options."
              /\ forall m,
                   x <> ExitStr ("No data to write. " +:+ m +:+ ". "
                                 +:+ "Check `start` and `end` options.")
                   /\ x <> ExitStr ("No data to write. " +:+ m +:+ ". "
                                    +:+ "Try again with `-c` option."))).
Proof.
  intros Ha Hdb Hve Hlm Hp Hw.
  destruct (run_after_prepare c a content kw s2 Ha Hdb Hve Hlm Hp Hw)
    as (x & s' & Hrun & Hcl & _ & _ & Hout).
  pose proof (parse_args_done E c init a init Ha) as (_ & (custom & Hn) & _).
  assert (Hcol : Args.collapse a = Cli.collapse c) by (subst a; reflexivity).
  exists x, s'. split; [exact Hrun|]. split; [exact Hcl|].
  destruct (snd (write E (Args.dest a) content kw)) as [res|err].
  - destruct Hout as (-> & Ht & Hh).
    split; [discriminate|]. split; [|split; [|discriminate]].
    + intros Hz. inversion Hz; subst res. now repeat split.
    + intros res' Hr Hne. inversion Hr; subst res'.
      unfold report_written. destruct (res =? 0)%Z eqn:Hz; [|reflexivity].
      apply Z.eqb_eq in Hz. contradiction.
  - destruct Hout as (Hx & Ht & Hh).
    split; [|split; [discriminate|split; [discriminate|]]].
    + intros m Hm. inversion Hm; subst err. simpl in Hx, Ht, Hh.
      inversion Hx; subst x. rewrite Hcol.
      split; [reflexivity|]. split; [reflexivity|].
      split; [intros H; now apply Ht in H | intros H; now apply Hh in H].
    + intros err' He Hnot. inversion He; subst err'. clear He.
      destruct err; simpl in Hx, Ht, Hh; inversion Hx; subst x.
      * left. apply Ht. now left.
      * exfalso. now apply (Hnot text).
      * right. left. apply Hh. now left.
      * right. right.
        destruct (balance_report_differs text) as (B1 & B2).
        split; [intros H; inversion H; contradiction|].
        intros m. destruct (B2 m) as (B3 & B4).
        split; intros H; inversion H; contradiction.
      * left. apply Ht. now left.
      * left. apply Ht. now left.
      * left. apply Ht. now left.
      * left. apply Ht. now left.
Qed.

End Reports.

Section Balance.

Context {R G : Type}.
Variable E : env R G (list Transaction.t) (list Transaction.t)
                 (stream (Transaction.t * Q)).
Variable epsilon : Q.
Variable balance_message : Q -> Q -> string.
Variable render_trxn : bool -> Transaction.t -> Q -> string.


End Balance.

(** ** The date window *)

Lemma in_window_spec (start end_ : option datetime) (t : Transaction.t) :
  in_window start end_ t = true <->
  (forall b, start = Some b -> (date_of b <= Transaction.date t)%Z)
  /\ (forall b, end_ = Some b -> (Transaction.date t <= date_of b)%Z).
Proof.
  unfold in_window. rewrite andb_true_iff.
  destruct start as [s|], end_ as [e|]; rewrite ?Z.leb_le; split.
  all: try (intros [H1 H2]; split; intros b Hb; inversion Hb; subst; assumption).
  all: try (intros [H1 H2]; split; first [reflexivity | now apply H1 | now apply H2]).
Qed.

Lemma nonempty_false (t : string) : nonempty t = false <-> t = EmptyString.
Proof. destruct t; simpl; split; congruence. Qed.

Section Window.

Context {records groups trxns cleaned data : Type}.
Variable E : env records groups trxns cleaned data.

(** C3 (as the code has it). The bounds of the date filter are inclusive
    calendar-date bounds, and a bound that is [None] excludes nothing.  When
    the user gives no [--start], the start bound is [None]: no transaction
    is excluded on the start side.  When the user gives no [--end], the end
    bound is not [None]: it is the declared default, the time at which the
    parser was built, parsed like a given date, so a transaction dated after
    that day is excluded.  The end bound is [None] exactly when [--end] is
    given as the empty string. *)
Theorem date_window_of_options (c : Cli.t) (s s' : state) (a : Args.t)
    (okw : Okw.t) :
  parse_args E c s = (Done a, s') ->
  okwargs E a = Val okw ->
  nonempty (now_str E) = true ->
  (forall t l,
     In t (date_filter (Okw.start okw) (Okw.end_ okw) l) <->
     In t l
     /\ (forall b, Okw.start okw = Some b -> (date_of b <= Transaction.date t)%Z)
     /\ (forall b, Okw.end_ okw = Some b -> (Transaction.date t <= date_of b)%Z))
  /\ (Cli.start c = None ->
        Okw.start okw = None
        /\ forall t l,
             In t (date_filter (Okw.start okw) (Okw.end_ okw) l) <->
             In t l
             /\ (forall b, Okw.end_ okw = Some b ->
                   (Transaction.date t <= date_of b)%Z))
  /\ (Cli.end_ c = None ->
        exists d,
          parse E (now_str E) (Cli.dayfirst c) = Val d
          /\ Okw.end_ okw = Some d
          /\ forall t l,
               (date_of d < Transaction.date t)%Z ->
               ~ In t (date_filter (Okw.start okw) (Okw.end_ okw) l))
  /\ (Okw.end_ okw = None <-> Cli.end_ c = Some EmptyString).
Proof.
  intros Hargs Hokw Hnow.
  apply parse_args_done in Hargs as (_ & (custom & Ha) & _).
  assert (Hs : Args.start a = Cli.start c) by (subst a; reflexivity).
  assert (He : Args.end_ a = or_default (Cli.end_ c) (now_str E))
    by (subst a; reflexivity).
  assert (Hdf : Args.dayfirst a = Cli.dayfirst c) by (subst a; reflexivity).
  clear Ha. unfold okwargs, rbind in Hokw.
  destruct (parse_opt E a (Args.start a)) as [st|] eqn:Hst; [|discriminate].
  destruct (parse_opt E a (Some (Args.end_ a))) as [en|] eqn:Hen; [|discriminate].
  inversion Hokw; subst okw; cbn [Okw.start Okw.end_]. clear Hokw.
  rewrite Hs in Hst. rewrite He in Hen.
  assert (Hfilter : forall t l,
            In t (date_filter st en l) <->
            In t l
            /\ (forall b, st = Some b -> (date_of b <= Transaction.date t)%Z)
            /\ (forall b, en = Some b -> (Transaction.date t <= date_of b)%Z)).
  { intros t l. unfold date_filter. rewrite filter_In. now rewrite in_window_spec. }
  split; [exact Hfilter|]. split; [|split].
  - intros Hnone. rewrite Hnone in Hst. simpl in Hst. inversion Hst; subst st.
    split; [reflexivity|]. intros t l. rewrite Hfilter.
    split; [intros (H1 & _ & H3); now split|].
    intros (H1 & H3). split; [exact H1|]. split; [discriminate | exact H3].
  - intros Hnone. rewrite Hnone in Hen. unfold parse_opt in Hen. simpl in Hen.
    rewrite Hnow, Hdf in Hen.
    destruct (parse E (now_str E) (Cli.dayfirst c)) as [d|] eqn:Hd; [|discriminate].
    simpl in Hen. inversion Hen; subst en.
    exists d. split; [reflexivity|]. split; [reflexivity|].
    intros t l Hlt Hin. apply Hfilter in Hin as (_ & _ & Hin).
    specialize (Hin d eq_refl). lia.
  - unfold parse_opt in Hen.
    destruct (nonempty (or_default (Cli.end_ c) (now_str E))) eqn:Hne.
    + destruct (parse E _ _) as [d|]; [|discriminate]. simpl in Hen.
      inversion Hen; subst en. split; [discriminate|].
      intros Hempty. rewrite Hempty in Hne. discriminate.
    + inversion Hen; subst en. split; [|reflexivity]. intros _.
      apply nonempty_false in Hne.
      destruct (Cli.end_ c) as [e|]; simpl in Hne.
      * now subst e.
      * rewrite Hne in Hnow. discriminate.
Qed.

End Window.

(** C3, the counterexample: [csv2ofx in.csv out.ofx], with neither
    [--start] nor [--end], run on 2026-11-04: the transaction dated
    2027-01-15 is dropped by the filter although the user gave no end. *)
Lemma end_omitted_still_bounded :
  Cli.start Example.cli = None
  /\ Cli.end_ Example.cli = None
  /\ exists a okw,
       parse_args (Example.world [Example.store; Example.later] false None)
         Example.cli init = (Done a, init)
       /\ okwargs (Example.world [Example.store; Example.later] false None) a = Val okw
       /\ Okw.end_ okw = Some (Example.midnight Example.today + 34200)
       /\ date_filter (Okw.start okw) (Okw.end_ okw) [Example.store; Example.later]
          = [Example.store].
Proof.
  split; [reflexivity|]. split; [reflexivity|].
  do 2 eexists. split; [vm_compute; reflexivity|].
  split; [vm_compute; reflexivity|]. split; reflexivity.
Qed.

Lemma date_window_of_options_witness :
  ~ In Example.later
      (date_filter None (Some (Example.midnight Example.today + 34200))
         [Example.store; Example.later]).
Proof.
  destruct (date_window_of_options
              (Example.world [Example.store; Example.later] false None)
              Example.cli init init _ Example.okw0 eq_refl eq_refl eq_refl)
    as (_ & _ & H & _).
  destruct (H eq_refl) as (d & Hd & Hend & Hout).
  inversion Hend; subst d.
  exact (Hout Example.later _ eq_refl).
Defined.

(** ** The account type *)



(** The parser stops at an option that it refuses, whatever follows. *)
Lemma parse_args_stops
    {records groups trxns cleaned data : Type}
    (E : env records groups trxns cleaned data)
    (c : Cli.t) (pre post : list Cli.opt) (o : Cli.opt) (flag value : string)
    (s : state) :
  Cli.opts c = pre ++ o :: post ->
  forallb (accepted E) pre = true ->
  (forall custom, take_action E o custom s
                  = (Exited (ExitInt 2), add_event (EvUsage flag value) s)) ->
  run E c s = (Exited (ExitInt 2), add_event (EvUsage flag value) s).
Proof.
  intros Hopts Hpre Hstop.
  unfold run. unfold bind at 1. unfold parse_args. unfold bind at 1.
  rewrite Hopts.
  destruct (consume_optionals_app E pre (o :: post) None s Hpre) as (custom' & ->).
  simpl. unfold bind at 1. now rewrite Hstop.
Qed.





(** ** Examples of whole runs *)

(** C5, the counterexample: [csv2ofx in.csv out.ofx -q -e 2020-12-31] on
    the row of 2021-01-01, with no collapse key.  The filter leaves no
    transaction and nothing is written; the run exits with the advice to
    check [start] and [end], not with the advice to give a collapse key. *)
Lemma empty_output_without_collapse_key :
  let c := Example.with_opts [Cli.Qif; Cli.End "2020-12-31"] Example.cli in
  let r := run (Example.world [Example.store] false None) c init in
  Cli.collapse c = None
  /\ date_filter None (Some (Example.midnight 18627)) [Example.store] = []
  /\ written (snd r) = EmptyString
  /\ fst r = Exited (ExitStr "No data to write. Check `start` and `end` options.")
  /\ mentions "-c" "No data to write. Check `start` and `end` options." = false.
Proof.
  vm_compute. repeat split.
Qed.

(** The scenario of the spec: expected ending balance 100.00, strict on,
    computed balance -50.00. *)
Example balance_mismatch_run :
  let c := Example.with_opts
             [Cli.Strict; Cli.Institution "BANK"; Cli.EndingBalance 100]
             Example.cli in
  let r := run (Example.world_of [Example.store] c) c init in
  fst r = Exited (ExitStr ("Ending balance does not match the transactions"
                           +:+ ".  Try again with `--ending-balance` option."))
  /\ handles_closed (snd r)
  /\ written (snd r) = EmptyString.
Proof.
  vm_compute. repeat split.
Qed.


Lemma no_data_reported_witness :
  let c := Example.with_opts [Cli.Qif; Cli.End "2020-12-31"] Example.cli in
  exists s',
    run (Example.world [Example.store] false None) c init
    = (Exited (ExitStr "No data to write. Check `start` and `end` options."), s')
    /\ handles_closed s'.
Proof.
  intros c.
  destruct (no_data_reported (Example.world [Example.store] false None) c
              (namespace (Example.world [Example.store] false None) c None)
              ([], None)
              {| Wkw.overwrite := false; Wkw.chunksize := 2 ^ 14;
                 Wkw.encoding := "utf-8" |}
              (add_event (EvCall Footer true)
                 (add_event (EvCall Header true) Fixtures.piped))
              eq_refl eq_refl eq_refl eq_refl eq_refl)
    as (x & s' & Hrun & Hcl & _ & Hzero & _).
  - intros path Hp. inversion Hp; subst path. reflexivity.
  - destruct (Hzero eq_refl) as (-> & _).
    exists s'. split; [exact Hrun | exact Hcl].
Defined.

Lemma csv_hints_from_mapping_witness :
  let k := ckwargs
             (namespace (Example.world [] false None)
                (Example.with_opts [Cli.FirstRow 5] Example.cli) None)
             (Example.renderer false Example.okw0) Example.mapping in
  Ckw.first_row k = PyInt 1
  /\ Ckw.last_row k = PyInf
  /\ Ckw.first_col k = PyInt 0
  /\ Ckw.delimiter k = PyStr ";".
Proof.
  pose proof (csv_hints_from_mapping (Example.world [] false None)
                (Example.with_opts [Cli.FirstRow 5] Example.cli) init init _
                (Example.renderer false Example.okw0) Example.mapping eq_refl) as H.
  vm_compute in H. vm_compute. exact H.
Defined.

Lemma server_date_fallback_witness :
  server_date_of (Example.world [] false None)
    (namespace (Example.world [] false None)
       (Example.with_opts [Cli.ServerDate "2021-12-31"] Example.cli) None)
    {| name := Some "in.csv" |} init
  = (Done (Example.midnight 18992), init)
  /\ server_date_of (Example.world [] false None)
       (namespace (Example.world [] false None) Example.cli None)
       {| name := Some "in.csv" |} init
     = (Done 1600000000, init)
  /\ server_date_of (Example.world [] false None)
       (namespace (Example.world [] false None) Example.cli None)
       {| name := Some "<stdin>" |} init
     = (Done 1793784600, init)
  /\ server_date_of (Example.world [] false None)
       (namespace (Example.world [] false None) Example.cli None)
       {| name := None |} init
     = (Done 1793784600, init).
Proof.
  split; [|split; [|split]].
  - destruct (server_date_fallback (Example.world [] false None)
                (namespace (Example.world [] false None)
                   (Example.with_opts [Cli.ServerDate "2021-12-31"] Example.cli) None)
                {| name := Some "in.csv" |} init) as (H & _).
    exact (H "2021-12-31" eq_refl eq_refl).
  - destruct (server_date_fallback (Example.world [] false None)
                (namespace (Example.world [] false None) Example.cli None)
                {| name := Some "in.csv" |} init) as (_ & H & _).
    exact (H "in.csv" 1600000000 eq_refl eq_refl eq_refl).
  - destruct (server_date_fallback (Example.world [] false None)
                (namespace (Example.world [] false None) Example.cli None)
                {| name := Some "<stdin>" |} init) as (_ & _ & H & _).
    exact (H "<stdin>" "<stdin>" eq_refl eq_refl eq_refl).
  - destruct (server_date_fallback (Example.world [] false None)
                (namespace (Example.world [] false None) Example.cli None)
                {| name := None |} init) as (_ & _ & _ & H & _).
    exact (H eq_refl eq_refl).
Defined.

(** * More of [run] *)

(** ** Exits, handles and reports of the whole run *)

Lemma report_kind (a : Args.t) (err : exn) (s s1 : state) (x : exit_arg) :
  report a err s = (Done x, s1) ->
  (forall e, x <> ExitExn e) /\ exit_status x = 1.
Proof.
  unfold report, bind, emit, ret.
  destruct err; intros H; inversion H; subst; split; (discriminate || reflexivity).
Qed.

Lemma report_written_kind (n : Z) :
  (forall e, report_written n <> ExitExn e)
  /\ (exit_status (report_written n) = 0 \/ exit_status (report_written n) = 1)
  /\ (exit_status (report_written n) = 0 <-> n <> 0%Z).
Proof.
  unfold report_written. destruct (n =? 0)%Z eqn:Hn; simpl.
  - apply Z.eqb_eq in Hn. repeat split; try discriminate; auto; intros H; congruence.
  - apply Z.eqb_neq in Hn. repeat split; try discriminate; auto.
Qed.

Section Extras.

Context {records groups trxns cleaned data : Type}.
Variable E : env records groups trxns cleaned data.

(** X6. [run] never returns: every path ends in [sys.exit] or in an
    exception that leaves the function. *)
Theorem run_never_returns (c : Cli.t) (r : step unit) (s' : state) :
  run E c init = (r, s') -> forall u, r <> Done u.
Proof.
  unfold run. intros H u.
  assert (Hi : handles_closed init) by (split; reflexivity).
  apply bind_inv in H as [(a & s1 & H1 & H) | [(e & H1 & ->) | (x & H1 & ->)]];
    try discriminate.
  pose proof (parse_args_done E c init a s1 H1) as (-> & _).
  destruct (Args.debug a);
    [|destruct (Args.version a); [|destruct (Args.list_mappings a)]].
  1-3: unfold bind, emit, sys_exit in H; inversion H; discriminate.
  apply bind_inv in H as [(v & s2 & H2 & H) | [(e & H2 & ->) | (x & H2 & ->)]];
    try discriminate.
  apply (prepare_calls E _ _ _ _ Hi) in H2 as (D & _ & tr & _ & _ & So & _).
  apply write_out_inv in H as [(e & path & -> & _) | (x & -> & _)];
    [discriminate | discriminate | exact So | exact D].
Qed.

(** X7. Without a source path [run] reads [sys.stdin] and never opens or
    closes a source handle; without a destination path it writes to
    [sys.stdout] and never opens or closes a destination handle: the
    standard streams are left open. *)
Theorem standard_streams_left_open (c : Cli.t) (r : step unit) (s' : state) :
  run E c init = (r, s') ->
  (truthy (Cli.source c) = false ->
     forall e, In e (log s') -> is_source_event e = false)
  /\ (truthy (Cli.dest c) = false ->
        forall e, In e (log s') -> is_dest_event e = false).
Proof.
  intros H.
  assert (Hadd : adds (fun e =>
                         (is_source_event e = true -> truthy (Cli.source c) = true)
                         /\ (is_dest_event e = true -> truthy (Cli.dest c) = true))
                   (run E c)).
  { unfold run. apply adds_bind.
    - apply adds_parse_args; [intros flag value|]; split; discriminate.
    - intros a s s1 Ha. apply parse_args_done in Ha as (_ & (custom & ->) & _).
      destruct (Args.debug _);
        [|destruct (Args.version _); [|destruct (Args.list_mappings _)]].
      1-3: apply adds_bind;
           [apply adds_emit; split; discriminate | intros; apply adds_sys_exit].
      apply adds_bind.
      + apply adds_prepare; simpl.
        * intros st b. split; discriminate.
        * intros p Hp. split; [intros _; exact Hp | discriminate].
        * intros Hp. split; [intros _; exact Hp | discriminate].
      + intros v _ _ _. apply adds_write_out; simpl;
          try (intros; split; discriminate);
          try (split; discriminate).
        * intros p Hp. split; [discriminate | intros _; exact Hp].
        * intros Hp. split; [discriminate | intros _; exact Hp].
        * intros Hp. split; [intros _; exact Hp | discriminate]. }
  split; intros Hno e He;
    destruct (Hadd init r s' H e He) as [[]|[Hs Hd]];
    [destruct (is_source_event e); [|reflexivity]; rewrite (Hs eq_refl) in Hno
    |destruct (is_dest_event e); [|reflexivity]; rewrite (Hd eq_refl) in Hno];
    discriminate.
Qed.

(** X2. When the run exits with the exception of the first [try]
    ([sys.exit(err)]), the destination has not been touched: it was never
    opened, nothing was written, the writer was never called, and the
    source handle is closed. *)
Theorem failure_before_write_spares_destination (c : Cli.t) (err : exn)
    (s' : state) :
  run E c init = (Exited (ExitExn err), s') ->
  written s' = EmptyString
  /\ (forall e, In e (log s') -> is_dest_event e = false)
  /\ ~ In Write (calls_of (log s'))
  /\ handles_closed s'.
Proof.
  unfold run. intros H.
  assert (Hi : handles_closed init) by (split; reflexivity).
  apply bind_inv in H as [(a & s1 & H1 & H) | [(e & H1 & Hr) | (x & H1 & Hr)]];
    try discriminate.
  2: { apply parse_args_inv in H1 as (_ & _ & [(-> & _) | (-> & _)]); inversion Hr. }
  pose proof (parse_args_done E c init a s1 H1) as (-> & _).
  destruct (Args.debug a);
    [|destruct (Args.version a); [|destruct (Args.list_mappings a)]].
  1-3: unfold bind, emit, sys_exit in H; inversion H.
  apply bind_inv in H as [(v & s2 & H2 & H) | [(e & H2 & Hr) | (x & H2 & Hr)]];
    try discriminate.
  - exfalso.
    apply (prepare_calls E _ _ _ _ Hi) in H2 as (D & _ & tr & _ & _ & So & _).
    apply write_out_inv in H as [(e & path & Habs & _) | (x & Hx & _ & _ & _ & _ & Hv)];
      [discriminate| |exact So|exact D].
    inversion Hx; subst x. clear Hx.
    destruct (snd (write E (Args.dest a) (fst v) (snd v))) as [res|e0].
    + exact (proj1 (report_written_kind _) err (eq_sym Hv)).
    + destruct Hv as (st & st' & Hv).
      apply report_kind in Hv as [Hv _]. exact (Hv err eq_refl).
  - inversion Hr; subst x. clear Hr.
    pose proof (adds_prepare E (fun e => is_dest_event e = false) a
                  (fun _ _ => eq_refl) (fun _ _ => eq_refl) (fun _ => eq_refl)
                  init _ s' H2) as Hev.
    apply (prepare_calls E _ _ _ _ Hi) in H2 as (D & W & tr & L & Hf & So & _).
    split; [exact W|]. split.
    { intros e He. destruct (Hev e He) as [[]|HP]; exact HP. }
    split; [|now split].
    unfold calls_of. rewrite L. simpl.
    destruct (follows_prefix _ _ Hf) as (_ & n & ->).
    intros Hin. apply in_firstn in Hin.
    simpl in Hin. intuition discriminate.
Qed.

(** X3. The exit status is 0, 1 or 2.  It is 0 in three cases only: [-h]
    was written and the parser printed the help, no stage called; or one of
    the flags [--debug], [--version], [--list-mappings] was given, no stage
    called; or all nine stages returned and the count that the writer
    returned is not zero.  It is 2 only for a usage error of the parser,
    which is all that the run then records. *)
Theorem exit_status_meaning (c : Cli.t) (x : exit_arg) (s' : state) :
  run E c init = (Exited x, s') ->
  (exit_status x = 0 \/ exit_status x = 1 \/ exit_status x = 2)
  /\ (exit_status x = 0 ->
        (In Cli.Help (Cli.opts c) /\ log s' = [EvPrintHelp]
         /\ written s' = EmptyString)
        \/ ((Cli.debug c = true \/ Cli.version c = true \/ Cli.list_mappings c = true)
            /\ calls_with (log s') = [] /\ written s' = EmptyString)
        \/ (calls_with (log s') = all_returned STAGES
            /\ exists a content kw res,
                 parse_args E c init = (Done a, init)
                 /\ snd (write E (Args.dest a) content kw) = Val res
                 /\ res <> 0
                 /\ written s' = fst (write E (Args.dest a) content kw)))
  /\ (exit_status x = 2 ->
        written s' = EmptyString
        /\ exists flag value, log s' = [EvUsage flag value]).
Proof.
  unfold run. intros H.
  assert (Hi : handles_closed init) by (split; reflexivity).
  apply bind_inv in H as [(a & s1 & H1 & H) | [(e & H1 & Hr) | (x0 & H1 & Hr)]];
    try discriminate.
  2: { inversion Hr; subst x0. clear Hr.
       apply parse_args_inv in H1
         as (_ & _ & [(-> & flag & value & ->) | (-> & -> & Hin)]); simpl.
       - split; [tauto|]. split; [discriminate|]. intros _.
         split; [reflexivity|]. now exists flag, value.
       - split; [tauto|]. split; [|discriminate]. intros _. left. now repeat split. }
  pose proof H1 as Ha.
  pose proof (parse_args_done E c init a s1 H1) as (-> & (custom & Hn) & _).
  assert (Hdb : Args.debug a = Cli.debug c) by (subst a; reflexivity).
  assert (Hve : Args.version a = Cli.version c) by (subst a; reflexivity).
  assert (Hlm : Args.list_mappings a = Cli.list_mappings c) by (subst a; reflexivity).
  clear Hn. rewrite Hdb, Hve, Hlm in H.
  destruct (Cli.debug c) eqn:Edb;
    [|destruct (Cli.version c) eqn:Eve; [|destruct (Cli.list_mappings c) eqn:Elm]].
  1-3: unfold bind, emit, sys_exit in H; inversion H; subst; simpl;
       (split; [tauto|]; split; [intros _; right; left; tauto | discriminate]).
  apply bind_inv in H as [(v & s2 & H2 & H) | [(e & H2 & Hr) | (x0 & H2 & Hr)]];
    try discriminate.
  - apply (prepare_calls E _ _ _ _ Hi) in H2 as (D & W & tr & L & Hf & So & ->).
    apply write_out_inv in H
      as [(e & path & Habs & _) | (x' & Hx' & _ & Hw & L2 & Hfail & Hv)];
      [discriminate| |exact So|exact D].
    inversion Hx'; subst x'. clear Hx'.
    destruct (snd (write E (Args.dest a) (fst v) (snd v))) as [res|e0] eqn:Hres.
    + subst x.
      destruct (report_written_kind res) as (_ & Hrange & Hzero).
      split; [tauto|]. split.
      * intros Hz. right. right. rewrite L2, L. split; [reflexivity|].
        exists a, (fst v), (snd v), res.
        split; [exact Ha|]. split; [exact Hres|].
        split; [now apply Hzero|]. rewrite Hw, W. reflexivity.
      * intros H2'. destruct Hrange as [Hr|Hr]; rewrite Hr in H2'; discriminate.
    + rewrite (Hfail eq_refl). split; [tauto|]. split; discriminate.
  - inversion Hr; subst x0. clear Hr.
    apply (prepare_calls E _ _ _ _ Hi) in H2 as (_ & _ & tr & _ & _ & _ & e0 & ->).
    simpl. split; [tauto|]. split; discriminate.
Qed.

End Extras.

(** ** Options that end the run early, or before it starts *)

Section Early.

Context {records groups trxns cleaned data : Type}.
Variable E : env records groups trxns cleaned data.

(** X1. With [--debug], [--version] or [--list-mappings], once the
    arguments are accepted, the run prints one text and exits with 0 before
    it loads a mapping, parses a date or opens a file: nothing else is
    recorded.  [--debug] wins over [--version], which wins over
    [--list-mappings]; the list is the module names joined by a comma and a
    space. *)
Theorem info_flags_exit_first (c : Cli.t) (s : state) (a : Args.t) :
  parse_args E c s = (Done a, s) ->
  Cli.debug c = true \/ Cli.version c = true \/ Cli.list_mappings c = true ->
  run E c s
  = (Exited (ExitInt 0),
     add_event (EvPrint (if Cli.debug c then "args"
                         else if Cli.version c then "v" +:+ version E
                         else join ", " (MODULES E))) s).
Proof.
  intros Ha Hflag. unfold run. unfold bind at 1. rewrite Ha.
  apply parse_args_done in Ha as (_ & (custom & Hn) & _).
  assert (Args.debug a = Cli.debug c) as -> by (subst a; reflexivity).
  assert (Args.version a = Cli.version c) as -> by (subst a; reflexivity).
  assert (Args.list_mappings a = Cli.list_mappings c) as -> by (subst a; reflexivity).
  destruct (Cli.debug c); [reflexivity|].
  destruct (Cli.version c); [reflexivity|].
  destruct (Cli.list_mappings c); [reflexivity|].
  destruct Hflag as [H|[H|H]]; discriminate.
Qed.

(** X10. A mapping name given with [-m] that is not one of the packaged
    modules ends the run in the argument parser, when nothing written
    before it on the command line has stopped the parser: a usage error
    about that name, status 2, and nothing else done, whatever follows it on
    the command line. *)
Theorem unknown_mapping_is_usage_error (c : Cli.t) (s : state)
    (pre post : list Cli.opt) (mname : string) :
  Cli.opts c = pre ++ Cli.Mapping mname :: post ->
  forallb (accepted E) pre = true ->
  in_choices (MODULES E) mname = false ->
  run E c s
  = (Exited (ExitInt 2), add_event (EvUsage "-m/--mapping" mname) s).
Proof.
  intros Hopts Hpre Hout.
  apply (parse_args_stops E c pre post (Cli.Mapping mname)); try assumption.
  intros custom. unfold take_action, check_choice. now rewrite Hout.
Qed.

(** X4. A custom mapping file given with [-x] is loaded while the
    arguments are parsed, every other option on the command line being one
    that the parser goes past.  When the loader returns a module, its
    mapping is the one the run uses, whatever [-m] says, and no packaged
    module is loaded.  When the loader raises [ArgumentTypeError],
    [TypeError] or [ValueError], the run ends with a usage error and status
    2; any other exception of the loader leaves [run] as it is, with nothing
    opened. *)
Theorem custom_mapping_loading (c : Cli.t) (s : state) (path : string) :
  (forall o, In o (Cli.opts c) -> o = Cli.Custom path \/ accepted E o = true) ->
  Cli.custom c = Some path ->
  match load_custom_module E path with
  | Val m =>
      Cli.extra c = [] ->
      parse_args E c s = (Done (namespace E c (Some m)), s)
      /\ load_mapping E (namespace E c (Some m)) = Val m
  | Raise (ArgumentTypeError _) | Raise (TypeError _) | Raise (ValueError _) =>
      run E c s
      = (Exited (ExitInt 2), add_event (EvUsage "-x/--custom" path) s)
  | Raise err => run E c s = (Thrown err, s)
  end.
Proof.
  intros Hall Hc.
  destruct (load_custom_module E path) as [m|err] eqn:Hl.
  - intros Hex. split; [|reflexivity].
    assert (Hacc : forallb (accepted E) (Cli.opts c) = true).
    { apply forallb_forall. intros o Hin.
      destruct (Hall o Hin) as [->|Ho]; [|exact Ho]. simpl. now rewrite Hl. }
    unfold parse_args. unfold bind at 1.
    rewrite (consume_optionals_accepted E _ None s Hacc).
    unfold Cli.custom in Hc. rewrite Hc, Hl, Hex. reflexivity.
  - assert (Hsplit : exists pre post,
              Cli.opts c = pre ++ Cli.Custom path :: post
              /\ forallb (accepted E) pre = true).
    { unfold Cli.custom in Hc. apply last_of_In in Hc as (o & Hin & Ho).
      destruct o; try discriminate. inversion Ho; subst path0. clear Ho.
      revert Hin Hall. generalize (Cli.opts c). intros l.
      induction l as [|o l IH]; intros Hin Hall; [destruct Hin|].
      destruct (Hall o (or_introl eq_refl)) as [->|Ho].
      - exists [], l. now split.
      - destruct Hin as [->|Hin].
        + exists [], l. now split.
        + destruct IH as (pre & post & -> & Hpre);
            [exact Hin | intros o' Ho'; apply Hall; now right|].
          exists (o :: pre), post. split; [reflexivity|]. simpl.
          now rewrite Ho, Hpre. }
    destruct Hsplit as (pre & post & Hopts & Hpre).
    assert (Hstop : forall custom,
              run E c s
              = match take_action E (Cli.Custom path) custom s with
                | (Done cu, s1) => run E c s
                | (Thrown e, s1) => (Thrown e, s1)
                | (Exited x, s1) => (Exited x, s1)
                end).
    { intros custom.
      unfold take_action, convert_custom, bind. rewrite Hl.
      unfold run at 1. unfold bind at 1. unfold parse_args. unfold bind at 1.
      rewrite Hopts.
      destruct (consume_optionals_app E pre (Cli.Custom path :: post) None s Hpre)
        as (custom' & ->).
      simpl. unfold bind at 1. unfold take_action, convert_custom, bind.
      rewrite Hl. destruct err; reflexivity. }
    rewrite (Hstop None). unfold take_action, convert_custom, bind. rewrite Hl.
    destruct err; reflexivity.
Qed.

(** X8. A [--start] date that the date parser refuses is not reported
    through [sys.exit]: it is parsed before the first [try], so the
    exception leaves [run] as it is, with nothing opened and nothing
    recorded. *)
Theorem invalid_start_date_is_uncaught (c : Cli.t) (s : state) (a : Args.t)
    (m : gmap string pyval) (text : string) (err : exn) :
  parse_args E c s = (Done a, s) ->
  Cli.debug c = false -> Cli.version c = false -> Cli.list_mappings c = false ->
  load_mapping E a = Val m ->
  Cli.start c = Some text ->
  nonempty text = true ->
  parse E text (Cli.dayfirst c) = Raise err ->
  run E c s = (Thrown err, s).
Proof.
  intros Ha Hd Hv Hl Hm Hs Hne Hp.
  rewrite (run_past_flags E c a s Ha Hd Hv Hl).
  apply parse_args_done in Ha as (_ & (custom & Hn) & _).
  assert (Hst : Args.start a = Cli.start c) by (subst a; reflexivity).
  assert (Hdf : Args.dayfirst a = Cli.dayfirst c) by (subst a; reflexivity).
  unfold bind at 1. unfold prepare. unfold bind at 1.
  rewrite Hm. simpl. unfold bind at 1.
  unfold make_container, okwargs, parse_opt.
  rewrite Hst, Hs, Hne, Hdf, Hp. reflexivity.
Qed.

(** X9. A [--server-date] that the date parser refuses is parsed inside
    the first [try], after the body has been set up: the exception is
    caught, the header and the footer are never generated, the source is
    closed when it was opened from a path, and the run exits with the
    exception. *)
Theorem invalid_server_date_exits (a : Args.t) (m : gmap string pyval)
    (cont : container records groups trxns cleaned data) (src : source_obj)
    (body : section) (text : string) (err : exn) (s s0 s1 : state) :
  load_mapping E a = Val m ->
  make_container E a m = Val cont ->
  open_source E a s = (Done src, s0) ->
  gen_pipeline E a cont src (ckwargs a cont m) s0 = (Done body, s1) ->
  Args.server_date a = Some text ->
  nonempty text = true ->
  parse E text (Args.dayfirst a) = Raise err ->
  prepare E a s
  = (Exited (ExitExn err),
     if truthy (Args.source a)
     then add_event EvCloseSource (set_source_open false s1)
     else s1).
Proof.
  intros Hm Hc Ho Hp Hsd Hne Hparse.
  unfold prepare. unfold bind at 1. rewrite Hm. simpl.
  unfold bind at 1. rewrite Hc. simpl.
  unfold bind at 1. rewrite Ho.
  unfold try_except, build_content. unfold bind at 1. rewrite Hp.
  unfold bind at 1. unfold server_date_of, truthy. rewrite Hsd, Hne. simpl.
  rewrite Hparse. simpl.
  unfold when, bind, close_source, sys_exit, ret.
  destruct (Args.source a) as [p|]; [destruct (nonempty p)|]; reflexivity.
Qed.

(** X5. What the run reports when the writer raises, once the
    destination is open.  A [KeyError] gives the message that the field is
    missing from the file, with the text of the error, which names the key,
    and a traceback.  A [ValueError] gives "Possible mapping problem:" with
    the text of the error, and the help is printed but no traceback.  An
    exception of a class that no [except] clause names gives a traceback
    and the bare status 1.  Both handles are closed and the status is 1. *)
Theorem writer_failures_reported (c : Cli.t) (a : Args.t) (content : stream string)
    (kw : Wkw.t) (s2 : state) (err : exn) :
  parse_args E c init = (Done a, init) ->
  Cli.debug c = false -> Cli.version c = false -> Cli.list_mappings c = false ->
  prepare E a init = (Done (content, kw), s2) ->
  (forall path, Args.dest a = Some path ->
     open_write E path (Args.encoding a) = Val tt) ->
  snd (write E (Args.dest a) content kw) = Raise err ->
  exists x s',
    run E c init = (Exited x, s')
    /\ handles_closed s'
    /\ exit_status x = 1
    /\ (forall text, err = KeyError text ->
          x = ExitStr ("Field " +:+ text
                       +:+ " is missing from file. Check `mapping` option.")
          /\ In EvTraceback (log s')
          /\ ~ In EvPrintHelp (log s'))
    /\ (forall text, err = ValueError text ->
          x = ExitStr ("Possible mapping problem: " +:+ text +:+ ".")
          /\ In EvPrintHelp (log s')
          /\ ~ In EvTraceback (log s'))
    /\ ((forall text, err <> KeyError text) ->
        (forall text, err <> TypeError text) ->
        (forall text, err <> ValueError text) ->
        (forall expected actual text, err <> BalanceError expected actual text) ->
        x = ExitInt 1
        /\ In EvTraceback (log s')
        /\ ~ In EvPrintHelp (log s')).
Proof.
  intros Ha Hdb Hve Hlm Hp Hw Herr.
  destruct (run_after_prepare E c a content kw s2 Ha Hdb Hve Hlm Hp Hw)
    as (x & s' & Hrun & Hcl & _ & _ & Hout).
  rewrite Herr in Hout. destruct Hout as (Hx & Ht & Hh).
  exists x, s'. split; [exact Hrun|]. split; [exact Hcl|].
  split.
  { destruct (report a err init) as [r st] eqn:Hr. simpl in Hx. subst r.
    exact (proj2 (report_kind a err init st x Hr)). }
  split; [|split].
  - intros text ->. simpl in Hx, Ht, Hh. inversion Hx; subst x.
    split; [reflexivity|]. split; [apply Ht; now left|].
    intros H. apply Hh in H. destruct H as [H|[]]. discriminate.
  - intros text ->. simpl in Hx, Ht, Hh. inversion Hx; subst x.
    split; [reflexivity|]. split; [apply Hh; now left|].
    intros H. apply Ht in H. destruct H as [H|[]]. discriminate.
  - intros N1 N2 N3 N4.
    destruct err; simpl in Hx, Ht, Hh;
      try (exfalso; first [now apply (N1 text) | now apply (N2 text)
                          | now apply (N3 text) | now apply (N4 expected actual text)]);
      inversion Hx; subst x;
      (split; [reflexivity|]); (split; [apply Ht; now left|]);
      intros H; apply Hh in H; destruct H as [H|[]]; discriminate.
Qed.

End Early.

(** X11. The content stops at the first section that raises: when the
    header raises while it is drained, neither the body nor the footer
    contributes; when the header is fine and the body raises, the content
    is the header and the fragments of the body before the exception, and
    the footer contributes nothing. *)
Theorem content_stops_at_first_error (h b f : section) (err : exn) :
  (snd (contribution h) = Some err -> content_of h b f = contribution h)
  /\ (snd (contribution h) = None -> snd (contribution b) = Some err ->
        content_of h b f
        = (fst (contribution h) ++ fst (contribution b), Some err)).
Proof.
  split.
  - intros Hh. rewrite content_of_chain. unfold chain at 1. now rewrite Hh.
  - intros Hh Hb. rewrite content_of_chain.
    unfold chain at 2. rewrite Hb.
    unfold chain. rewrite Hh. destruct (contribution b) as [lb ob].
    simpl in *. now subst ob.
Qed.

(** ** The small world again *)

Lemma info_flags_exit_first_witness :
  run (Example.world [Example.store] false None)
    (Example.with_opts [Cli.ListMappings; Cli.Version] Example.cli) init
  = (Exited (ExitInt 0), add_event (EvPrint "v0.34.0") init).
Proof.
  apply (info_flags_exit_first (Example.world [Example.store] false None)
           (Example.with_opts [Cli.ListMappings; Cli.Version] Example.cli) init
           (namespace (Example.world [Example.store] false None)
              (Example.with_opts [Cli.ListMappings; Cli.Version] Example.cli) None)).
  - vm_compute. reflexivity.
  - right. left. reflexivity.
Defined.

(** [csv2ofx in.csv out.ofx -q -m nope -h]: the parser stops at [-m]. *)
Lemma unknown_mapping_is_usage_error_witness :
  run (Example.world [Example.store] false None)
    (Example.with_opts [Cli.Qif; Cli.Mapping "nope"; Cli.Help] Example.cli) init
  = (Exited (ExitInt 2), add_event (EvUsage "-m/--mapping" "nope") init).
Proof.
  apply (unknown_mapping_is_usage_error (Example.world [Example.store] false None)
           (Example.with_opts [Cli.Qif; Cli.Mapping "nope"; Cli.Help] Example.cli)
           init [Cli.Qif] [Cli.Help] "nope"); reflexivity.
Defined.

Lemma custom_mapping_loading_witness :
  load_mapping Fixtures.world_with_custom
    (namespace Fixtures.world_with_custom
       (Example.with_opts [Cli.Mapping "mint"; Cli.Custom "my.py"] Example.cli)
       (Some Fixtures.custom_mapping))
  = Val Fixtures.custom_mapping
  /\ run Fixtures.world_with_custom
       (Example.with_opts [Cli.Custom "bad.py"] Example.cli) init
     = (Exited (ExitInt 2), add_event (EvUsage "-x/--custom" "bad.py") init).
Proof.
  split.
  - refine (proj2 (custom_mapping_loading Fixtures.world_with_custom
                     (Example.with_opts [Cli.Mapping "mint"; Cli.Custom "my.py"]
                        Example.cli)
                     init "my.py" _ eq_refl eq_refl)).
    intros o [<-|[<-|[]]]; [now right | now left].
  - refine (custom_mapping_loading Fixtures.world_with_custom
              (Example.with_opts [Cli.Custom "bad.py"] Example.cli)
              init "bad.py" _ eq_refl).
    intros o [<-|[]]. now left.
Defined.

Lemma invalid_start_date_is_uncaught_witness :
  run (Example.world [Example.store] false None)
    (Example.with_opts [Cli.Start "someday"] Example.cli) init
  = (Thrown (ValueError "Unknown string format: someday"), init).
Proof.
  apply (invalid_start_date_is_uncaught (Example.world [Example.store] false None)
           (Example.with_opts [Cli.Start "someday"] Example.cli) init
           (namespace (Example.world [Example.store] false None)
              (Example.with_opts [Cli.Start "someday"] Example.cli) None)
           Example.mapping "someday");
    reflexivity.
Defined.

Lemma invalid_server_date_exits_witness :
  prepare (Example.world [Example.store] false None)
    (namespace (Example.world [Example.store] false None)
       (Example.with_opts [Cli.ServerDate "someday"] Example.cli) None)
    init
  = (Exited (ExitExn (ValueError "Unknown string format: someday")),
     add_event EvCloseSource (set_source_open false Fixtures.piped)).
Proof.
  refine (invalid_server_date_exits (Example.world [Example.store] false None)
            (namespace (Example.world [Example.store] false None)
               (Example.with_opts [Cli.ServerDate "someday"] Example.cli) None)
            Example.mapping (Example.renderer false Example.okw0)
            {| name := Some "in.csv" |} (SGen (["Store;"], None)) "someday"
            (ValueError "Unknown string format: someday")
            init Fixtures.opened Fixtures.piped
            eq_refl eq_refl eq_refl eq_refl eq_refl eq_refl eq_refl).
Defined.

(** [csv2ofx in.csv out.ofx -C -1]: the writer of the small world refuses
    the chunk size with a [ValueError]. *)
Lemma writer_failures_reported_witness :
  exists s',
    run (Example.world [Example.store] false None)
      (Example.with_opts [Cli.Chunksize (-1)] Example.cli) init
    = (Exited (ExitStr ("Possible mapping problem: "
                        +:+ "Stop argument for islice() must be None or an integer"
                        +:+ ".")), s')
    /\ In EvPrintHelp (log s')
    /\ written s' = EmptyString.
Proof.
  destruct (writer_failures_reported (Example.world [Example.store] false None)
              (Example.with_opts [Cli.Chunksize (-1)] Example.cli)
              (namespace (Example.world [Example.store] false None)
                 (Example.with_opts [Cli.Chunksize (-1)] Example.cli) None)
              (["<"; "O"; "F"; "X"; ">"; "E"; "N"; "G"; ";"; "Store;";
                "<"; "/"; "O"; "F"; "X"; ">"], None)
              {| Wkw.overwrite := false; Wkw.chunksize := -1;
                 Wkw.encoding := "utf-8" |}
              (add_event (EvCall Footer true)
                 (add_event (EvCall Header true) Fixtures.piped))
              (ValueError "Stop argument for islice() must be None or an integer")
              eq_refl eq_refl eq_refl eq_refl eq_refl)
    as (x & s' & Hrun & _ & _ & _ & Hval & _).
  - intros path Hp. inversion Hp; subst path. reflexivity.
  - reflexivity.
  - destruct (Hval _ eq_refl) as (-> & Hh & _).
    exists s'. split; [exact Hrun|]. split; [exact Hh|].
    assert (Hs : snd (run (Example.world [Example.store] false None)
                        (Example.with_opts [Cli.Chunksize (-1)] Example.cli) init)
                 = s') by (rewrite Hrun; reflexivity).
    rewrite <- Hs. vm_compute. reflexivity.
Defined.

Lemma run_never_returns_witness :
  fst (run (Example.world [Example.store] false None) Example.cli init) <> Done tt.
Proof.
  exact (run_never_returns (Example.world [Example.store] false None) Example.cli
           _ _ (surjective_pairing _) tt).
Defined.

Lemma standard_streams_left_open_witness :
  forallb (fun e => negb (is_source_event e) && negb (is_dest_event e))
    (log (snd (run (Example.world [Example.store] false None) Fixtures.stdio init)))
  = true.
Proof.
  apply forallb_forall. intros e He.
  destruct (standard_streams_left_open (Example.world [Example.store] false None)
              Fixtures.stdio _ _ (surjective_pairing _)) as (Hs & Hd).
  now rewrite (Hs eq_refl e He), (Hd eq_refl e He).
Defined.

Lemma failure_before_write_spares_destination_witness :
  let r := run (Example.world [Example.store] false None)
             (Example.with_opts [Cli.Account "Bank"] Example.cli) init in
  fst r = Exited (ExitExn (OtherError "UnsupportedAccountType" "Bank"))
  /\ written (snd r) = EmptyString
  /\ handles_closed (snd r).
Proof.
  intros r.
  assert (H : run (Example.world [Example.store] false None)
                (Example.with_opts [Cli.Account "Bank"] Example.cli) init
              = (Exited (ExitExn (OtherError "UnsupportedAccountType" "Bank")), snd r))
    by (vm_compute; reflexivity).
  destruct (failure_before_write_spares_destination _ _ _ _ H) as (Hw & _ & _ & Hc).
  split; [vm_compute; reflexivity|]. split; [exact Hw | exact Hc].
Defined.

(** [csv2ofx -h in.csv out.ofx]: the help, and status 0. *)
Lemma exit_status_meaning_witness :
  calls_with (log Example.final) = all_returned STAGES
  /\ log (snd (run (Example.world [Example.store] false None)
                 (Example.with_opts [Cli.Help] Example.cli) init))
     = [EvPrintHelp].
Proof.
  split.
  - assert (H : run (Example.world [Example.store] false None) Example.cli init
                = (Exited (ExitInt 0), Example.final)) by (vm_compute; reflexivity).
    destruct (exit_status_meaning _ _ _ _ H) as (_ & Hz & _).
    destruct (Hz eq_refl) as [(Hh & _) | [([Hf|[Hf|Hf]] & _) | (Hok & _)]];
      try discriminate; [destruct Hh | exact Hok].
  - assert (H : run (Example.world [Example.store] false None)
                  (Example.with_opts [Cli.Help] Example.cli) init
                = (Exited (ExitInt 0), add_event EvPrintHelp init))
      by (vm_compute; reflexivity).
    destruct (exit_status_meaning _ _ _ _ H) as (_ & Hz & _).
    destruct (Hz eq_refl) as [(_ & Hlog & _) | [([Hf|[Hf|Hf]] & _) | (Hok & _)]];
      try discriminate.
    rewrite H. exact Hlog.
Defined.

Lemma content_stops_at_first_error_witness :
  content_of (SStr "<OFX>") (SGen (["a;"], Some (KeyError "'Date'"))) (SStr "</OFX>")
  = (["<"; "O"; "F"; "X"; ">"; "a;"], Some (KeyError "'Date'")).
Proof.
  exact (proj2 (content_stops_at_first_error
                  (SStr "<OFX>") (SGen (["a;"], Some (KeyError "'Date'")))
                  (SStr "</OFX>") (KeyError "'Date'")) eq_refl eq_refl).
Defined.

(** ** The destination *)

Section Destination.

Context {records groups trxns cleaned data : Type}.
Variable E : env records groups trxns cleaned data.

(** X12. The run that goes well: when the first [try] has produced its
    content, the destination can be opened and the writer returns a count
    that is not zero, the run exits with 0, both handles closed, all nine
    stages having returned; the destination holds what this one call of the
    writer has put there. *)
Theorem successful_run_writes_content (c : Cli.t) (a : Args.t)
    (content : stream string) (kw : Wkw.t) (s2 : state) (res : Z) :
  parse_args E c init = (Done a, init) ->
  Cli.debug c = false -> Cli.version c = false -> Cli.list_mappings c = false ->
  prepare E a init = (Done (content, kw), s2) ->
  (forall path, Args.dest a = Some path ->
     open_write E path (Args.encoding a) = Val tt) ->
  snd (write E (Args.dest a) content kw) = Val res ->
  res <> 0 ->
  exists s',
    run E c init = (Exited (ExitInt 0), s')
    /\ written s' = fst (write E (Args.dest a) content kw)
    /\ handles_closed s'
    /\ calls_with (log s') = all_returned STAGES.
Proof.
  intros Ha Hd Hv Hl Hp Hw Hres Hne.
  destruct (run_after_prepare E c a content kw s2 Ha Hd Hv Hl Hp Hw)
    as (x & s' & Hrun & Hcl & Hwr & L & Hout).
  rewrite Hres in Hout, L. destruct Hout as (-> & _).
  exists s'. split.
  - rewrite Hrun. unfold report_written.
    destruct (res =? 0)%Z eqn:Hz; [|reflexivity].
    apply Z.eqb_eq in Hz. contradiction.
  - split; [exact Hwr|]. split; [exact Hcl | exact L].
Qed.

(** X13. The destination is opened outside both [try] blocks: when
    opening it raises, the exception leaves [run] as it is, nothing is
    written, the writer is never called, and a source that was opened from
    a path stays open. *)
Theorem destination_open_failure (c : Cli.t) (a : Args.t)
    (v : stream string * Wkw.t) (s2 : state) (path : string) (err : exn) :
  parse_args E c init = (Done a, init) ->
  Cli.debug c = false -> Cli.version c = false -> Cli.list_mappings c = false ->
  prepare E a init = (Done v, s2) ->
  Args.dest a = Some path ->
  nonempty path = true ->
  open_write E path (Args.encoding a) = Raise err ->
  run E c init = (Thrown err, s2)
  /\ source_open s2 = truthy (Args.source a)
  /\ written s2 = EmptyString
  /\ calls_with (log s2) = all_returned RENDERED.
Proof.
  intros Ha Hd Hv Hl Hp Hdest Hne Hw.
  assert (Hi : handles_closed init) by (split; reflexivity).
  pose proof (prepare_calls E _ _ _ _ Hi Hp) as (_ & W & tr & L & _ & So & ->).
  split; [|split; [exact So | split; [exact W | exact L]]].
  rewrite (run_past_flags E c a init Ha Hd Hv Hl).
  unfold bind at 1. rewrite Hp.
  unfold write_out. unfold bind at 1. unfold open_dest.
  rewrite Hdest, Hne.
  unfold bind at 1. rewrite Hw. reflexivity.
Qed.

End Destination.

Lemma successful_run_writes_content_witness :
  exists s',
    run (Example.world [Example.store] false None) Example.cli init
    = (Exited (ExitInt 0), s')
    /\ written s' = "<OFX>ENG;Store;</OFX>"
    /\ handles_closed s'.
Proof.
  destruct (successful_run_writes_content
              (Example.world [Example.store] false None) Example.cli
              (namespace (Example.world [Example.store] false None) Example.cli None)
              (["<"; "O"; "F"; "X"; ">"; "E"; "N"; "G"; ";"; "Store;";
                "<"; "/"; "O"; "F"; "X"; ">"], None)
              {| Wkw.overwrite := false; Wkw.chunksize := 2 ^ 14;
                 Wkw.encoding := "utf-8" |}
              (add_event (EvCall Footer true)
                 (add_event (EvCall Header true) Fixtures.piped))
              21
              eq_refl eq_refl eq_refl eq_refl eq_refl)
    as (s' & Hr & Hw & Hc & _).
  - intros path Hp. inversion Hp; subst path. reflexivity.
  - reflexivity.
  - discriminate.
  - exists s'. split; [exact Hr|]. split; [exact Hw | exact Hc].
Defined.

Lemma destination_open_failure_witness :
  run (Example.world [Example.store] false None)
    (Example.with_dest (Some "/root/out.ofx") Example.cli) init
  = (Thrown (OtherError "PermissionError" "/root/out.ofx"),
     add_event (EvCall Footer true) (add_event (EvCall Header true) Fixtures.piped))
  /\ source_open
       (add_event (EvCall Footer true) (add_event (EvCall Header true) Fixtures.piped))
     = true.
Proof.
  destruct (destination_open_failure
              (Example.world [Example.store] false None)
              (Example.with_dest (Some "/root/out.ofx") Example.cli)
              (namespace (Example.world [Example.store] false None)
                 (Example.with_dest (Some "/root/out.ofx") Example.cli) None)
              ((["<"; "O"; "F"; "X"; ">"; "E"; "N"; "G"; ";"; "Store;";
                 "<"; "/"; "O"; "F"; "X"; ">"], None),
               {| Wkw.overwrite := false; Wkw.chunksize := 2 ^ 14;
                  Wkw.encoding := "utf-8" |})
              (add_event (EvCall Footer true)
                 (add_event (EvCall Header true) Fixtures.piped))
              "/root/out.ofx" (OtherError "PermissionError" "/root/out.ofx")
              eq_refl eq_refl eq_refl eq_refl eq_refl eq_refl eq_refl eq_refl)
    as (Hr & Hs & _).
  split; [exact Hr | exact Hs].
Defined.
